(** * The Bulk API 2.0 ingest client of [salesforce_api.services.bulk]

    A shallow embedding of [src/salesforce_api/services/bulk.py]: the
    [Bulk] service, the per-object facade [BulkObject] and the [Job]
    life cycle (upload, state changes, polling, result retrieval).

    The program talks to a remote platform through a connection object.
    The embedding keeps that interaction explicit: every method is a
    computation over the trace of the requests sent and the pauses taken
    so far, and the connection is a function that answers a request
    given that trace.  Python exceptions are an outcome of their own. *)

From Stdlib Require Import String Ascii List ZArith NArith QArith Bool Lia.
From Equations Require Import Equations.
From Equations.Prop Require Import Logic.
Import ListNotations.
Local Close Scope Q_scope.
Local Open Scope string_scope.
Local Open Scope list_scope.
Set Warnings "-register-all".

(** ** Python values and exceptions *)

(** The values that travel in JSON documents and keyword arguments.
    A [dict] keeps its items in insertion order, with unique keys. *)
Inductive pyval : Type :=
| PNone
| PBool (b : bool)
| PInt (z : Z)
| PStr (s : string)
| PList (l : list pyval)
| PDict (d : list (string * pyval)).

(** The exceptions that can cross the methods of [bulk.py].
    [TransportError] stands for whatever the connection raises on an
    HTTP-layer failure; [EncodingError] for a failure of the CSV
    preparer. *)
Inductive Exception : Type :=
| NotImplementedError
| JSONDecodeError
| AttributeError
| TypeError
| IndexError
| csv_Error (msg : string)
| BulkJobFailedError (message : pyval)
| TransportError (msg : string)
| EncodingError (msg : string).

Definition is_JSONDecodeError (e : Exception) : bool :=
  match e with JSONDecodeError => true | _ => false end.

Fixpoint assoc (k : string) (d : list (string * pyval)) : option pyval :=
  match d with
  | [] => None
  | (k', v) :: d' => if String.eqb k k' then Some v else assoc k d'
  end.

(** [obj.get(key)]: a dict answers with the value, or [None] when the key
    is absent; nothing else has a [get] attribute. *)
Definition py_get (obj : pyval) (key : string) : Exception + pyval :=
  match obj with
  | PDict d => inr (match assoc key d with Some v => v | None => PNone end)
  | _ => inl AttributeError
  end.

(** [v == s] for a string constant [s]: only a string equals a string. *)
Definition py_eq_str (v : pyval) (s : string) : bool :=
  match v with
  | PStr s' => String.eqb s' s
  | _ => false
  end.

(** [v in states] for a sequence of string constants. *)
Definition py_in (v : pyval) (states : list string) : bool :=
  existsb (py_eq_str v) states.

(** [x[i]] on a list of strings. *)
Definition py_index (x : list string) (i : nat) : Exception + string :=
  match nth_error x i with
  | Some s => inr s
  | None => inl IndexError
  end.

(** ** Calling a method

    A call of a method gives positional and keyword arguments besides
    the receiver.  They are bound to the parameters
    before the body runs, and a call that does not bind raises
    [TypeError]. *)

(** A keyword is given twice. *)
Fixpoint repeated_keyword (kwargs : list (string * pyval)) : bool :=
  match kwargs with
  | [] => false
  | (k, _) :: kwargs' =>
      match assoc k kwargs' with
      | Some _ => true
      | None => repeated_keyword kwargs'
      end
  end.

(** [def m(self)]: nothing but the receiver is accepted. *)
Definition binds_self (args : list pyval) (kwargs : list (string * pyval))
  : bool :=
  match args, kwargs with
  | [], [] => true
  | _, _ => false
  end.

(** [def m(self, **kwargs)]: no positional argument is accepted; the
    keywords are all taken, unless one is given twice or is named
    [self], the parameter the receiver already fills. *)
Definition binds_self_kwargs (args : list pyval)
    (kwargs : list (string * pyval)) : bool :=
  match args with
  | [] =>
      negb (repeated_keyword kwargs)
      && match assoc "self" kwargs with
         | Some _ => false
         | None => true
         end
  | _ :: _ => false
  end.

(** ** The [csv] reader

    [csv.reader] over [io.StringIO(text)] with the default [excel]
    dialect (delimiter [,], quote character 34, doubled quotes, no escape
    character, not strict), after CPython's [Modules/_csv.c].  The states
    that only an escape character can reach are left out. *)
Module csv.

Inductive ParserState : Type :=
| START_RECORD | START_FIELD | IN_FIELD
| IN_QUOTED_FIELD | QUOTE_IN_QUOTED_FIELD | EAT_CRNL.

Record ReaderObj : Type := mkReader {
  state : ParserState;
  fields : list string;
  field : string
}.

Definition LF : ascii := "010"%char.
Definition CR : ascii := "013"%char.
Definition delimiter : ascii := ","%char.
Definition quotechar : ascii := "034"%char.
Definition field_limit : N := 131072.

Definition is_newline (c : ascii) : bool :=
  Ascii.eqb c LF || Ascii.eqb c CR.

Definition parse_reset : ReaderObj :=
  {| state := START_RECORD; fields := []; field := "" |}.

Definition set_state (self : ReaderObj) (s : ParserState) : ReaderObj :=
  {| state := s; fields := fields self; field := field self |}.

Definition parse_save_field (self : ReaderObj) : ReaderObj :=
  {| state := state self;
     fields := fields self ++ [field self];
     field := "" |}.

Definition parse_add_char (self : ReaderObj) (c : ascii)
  : Exception + ReaderObj :=
  if (field_limit <=? N.of_nat (String.length (field self)))%N
  then inl (csv_Error "field larger than field limit (131072)")
  else inr {| state := state self;
              fields := fields self;
              field := (field self ++ String c "")%string |}.

(** State after the end of a field at a line break or at the end of the
    line ([None] is the end-of-line mark the reader feeds after the last
    character of each line). *)
Definition end_of_field (self : ReaderObj) (c : option ascii) : ReaderObj :=
  set_state (parse_save_field self)
            (match c with None => START_RECORD | Some _ => EAT_CRNL end).

Definition process_START_FIELD (self : ReaderObj) (c : option ascii)
  : Exception + ReaderObj :=
  match c with
  | None => inr (end_of_field self c)
  | Some a =>
      if is_newline a then inr (end_of_field self c)
      else if Ascii.eqb a quotechar then inr (set_state self IN_QUOTED_FIELD)
      else if Ascii.eqb a delimiter then inr (parse_save_field self)
      else match parse_add_char self a with
           | inl e => inl e
           | inr self' => inr (set_state self' IN_FIELD)
           end
  end.

Definition parse_process_char (self : ReaderObj) (c : option ascii)
  : Exception + ReaderObj :=
  match state self with
  | START_RECORD =>
      match c with
      | None => inr self
      | Some a =>
          if is_newline a then inr (set_state self EAT_CRNL)
          else process_START_FIELD (set_state self START_FIELD) c
      end
  | START_FIELD => process_START_FIELD self c
  | IN_FIELD =>
      match c with
      | None => inr (end_of_field self c)
      | Some a =>
          if is_newline a then inr (end_of_field self c)
          else if Ascii.eqb a delimiter
               then inr (set_state (parse_save_field self) START_FIELD)
               else parse_add_char self a
      end
  | IN_QUOTED_FIELD =>
      match c with
      | None => inr self
      | Some a =>
          if Ascii.eqb a quotechar
          then inr (set_state self QUOTE_IN_QUOTED_FIELD)
          else parse_add_char self a
      end
  | QUOTE_IN_QUOTED_FIELD =>
      match c with
      | None => inr (end_of_field self c)
      | Some a =>
          if Ascii.eqb a quotechar
          then match parse_add_char self a with
               | inl e => inl e
               | inr self' => inr (set_state self' IN_QUOTED_FIELD)
               end
          else if Ascii.eqb a delimiter
               then inr (set_state (parse_save_field self) START_FIELD)
               else if is_newline a then inr (end_of_field self c)
               else match parse_add_char self a with
                    | inl e => inl e
                    | inr self' => inr (set_state self' IN_FIELD)
                    end
      end
  | EAT_CRNL =>
      match c with
      | None => inr (set_state self START_RECORD)
      | Some a =>
          if is_newline a then inr self
          else inl (csv_Error
                      ("new-line character seen in unquoted field - "
                       ++ "do you need to open the file in "
                       ++ "universal-newline mode?"))
      end
  end.

Fixpoint process_line (self : ReaderObj) (line : string)
  : Exception + ReaderObj :=
  match line with
  | EmptyString => inr self
  | String c line' =>
      match parse_process_char self (Some c) with
      | inl e => inl e
      | inr self' => process_line self' line'
      end
  end.

(** The lines [io.StringIO(text)] iterates over: each ends with its
    line feed, except possibly the last. *)
Fixpoint readlines (cur text : string) : list string :=
  match text with
  | EmptyString => match cur with EmptyString => [] | _ => [cur] end
  | String c text' =>
      if Ascii.eqb c LF
      then (cur ++ String c "")%string :: readlines "" text'
      else readlines (cur ++ String c "")%string text'
  end.

Definition StringIO (text : string) : list string := readlines "" text.

(** What one [next(reader)] does: a row and the lines left, the end of
    the iteration, or an error. *)
Inductive IterResult : Type :=
| StopIteration
| Yield (row : list string) (rest : list string)
| IterRaise (e : Exception).

Definition pending (self : ReaderObj) : bool :=
  negb (String.eqb (field self) "")
  || match state self with IN_QUOTED_FIELD => true | _ => false end.

(** The body of [Reader_iternext]: lines are consumed until the parser
    is back at the start of a record; at the end of the input a field
    in progress is still delivered (the dialect is not strict). *)
Fixpoint iternext_loop (self : ReaderObj) (lines : list string)
  : IterResult :=
  match lines with
  | [] =>
      if pending self
      then Yield (fields (parse_save_field self)) []
      else StopIteration
  | line :: rest =>
      match process_line self line with
      | inl e => IterRaise e
      | inr self1 =>
          match parse_process_char self1 None with
          | inl e => IterRaise e
          | inr self2 =>
              match state self2 with
              | START_RECORD => Yield (fields self2) rest
              | _ => iternext_loop self2 rest
              end
          end
      end
  end.

Definition Reader_iternext (lines : list string) : IterResult :=
  iternext_loop parse_reset lines.

(** [next(reader, None)]: one step whose row, if any, is dropped. *)
Definition next_default (lines : list string)
  : Exception + list string :=
  match Reader_iternext lines with
  | StopIteration => inr lines
  | Yield _ rest => inr rest
  | IterRaise e => inl e
  end.

(** [[callback(x) for x in reader]]. *)
Equations? comprehension {A : Type}
    (callback : list string -> Exception + A) (lines : list string)
  : Exception + list A by wf (List.length lines) lt :=
  comprehension callback lines with inspect (Reader_iternext lines) := {
    | exist _ StopIteration _ => inr [];
    | exist _ (IterRaise e) _ => inl e;
    | exist _ (Yield x rest) Hnext with callback x := {
        | inl e => inl e;
        | inr a with comprehension callback rest := {
            | inl e => inl e;
            | inr l => inr (a :: l) } } }.
Proof.
  clear comprehension.
  assert (Hle : forall ls self row rest',
             iternext_loop self ls = Yield row rest' ->
             List.length rest' <= List.length ls).
  { induction ls as [|l ls IH]; intros self row rest' H; simpl in H.
    - destruct (pending self); [|discriminate H].
      injection H as _ <-. apply le_n.
    - destruct (process_line self l) as [e|self1]; [discriminate H|].
      destruct (parse_process_char self1 None) as [e|self2];
        [discriminate H|].
      destruct (state self2);
        first [ injection H as _ <-; simpl; lia
              | apply IH in H; simpl; lia ]. }
  unfold Reader_iternext in Hnext.
  destruct lines as [|l ls]; simpl in Hnext; [discriminate Hnext|].
  destruct (process_line parse_reset l) as [e|self1]; [discriminate Hnext|].
  destruct (parse_process_char self1 None) as [e|self2];
    [discriminate Hnext|].
  destruct (state self2);
    first [ injection Hnext as _ <-; simpl; lia
          | apply Hle in Hnext; simpl; lia ].
Qed.

End csv.

(** ** The connection and the trace of a run *)

Inductive Method : Type := GET | POST | PUT | PATCH | DELETE.

(** The arguments of one [connection.request(method, url, ...)] call. *)
Record Request : Type := mkRequest {
  method : Method;
  url : string;
  json : option pyval;
  data : option string;
  headers : list (string * string)
}.

(** What the program reads from a response: its [text], and the outcome
    of [json()], [None] when the body is not a JSON document. *)
Record Response : Type := mkResponse {
  text : string;
  json_body : option pyval
}.

Inductive Event : Type :=
| Requested (r : Request)
| Slept (seconds : Q).

Definition Trace : Type := list Event.

(** Modelled from the spec: the connection object (an external
    collaborator, absent from the sources) is "an HTTP transport
    providing get/post/put/patch/delete against a base URL, returning
    parsed JSON bodies or raw text, and raising on transport-level
    errors".  It answers a request, given everything that happened
    before, with a response or with the exception it raises. *)
Definition Connection : Type := Trace -> Request -> Exception + Response.

(** ** Computations *)

(** How a method call ends.  [Diverges] is not an outcome of the program:
    it marks a run of the polling loop cut short by the bound on its
    iterations. *)
Inductive Outcome (A : Type) : Type :=
| Returns (a : A)
| Raises (e : Exception)
| Diverges.
Arguments Returns {A} a.
Arguments Raises {A} e.
Arguments Diverges {A}.

Definition M (A : Type) : Type := Trace -> Outcome A * Trace.

Definition ret {A : Type} (a : A) : M A := fun t => (Returns a, t).

Definition raise {A : Type} (e : Exception) : M A := fun t => (Raises e, t).

Definition diverge {A : Type} : M A := fun t => (Diverges, t).

Definition bind {A B : Type} (m : M A) (k : A -> M B) : M B :=
  fun t =>
    match m t with
    | (Returns a, t') => k a t'
    | (Raises e, t') => (Raises e, t')
    | (Diverges, t') => (Diverges, t')
    end.

Declare Scope bulk_scope.
Delimit Scope bulk_scope with bulk.
Notation "x <- c ;; k" := (bind c (fun x => k))
  (at level 61, c at next level, right associativity) : bulk_scope.
Notation "c ;; k" := (bind c (fun _ => k))
  (at level 61, right associativity) : bulk_scope.
Local Open Scope bulk_scope.

(** A pure step that may raise. *)
Definition lift {A : Type} (r : Exception + A) : M A :=
  match r with
  | inl e => raise e
  | inr a => ret a
  end.

(** [try: body / except E: handler], for the exceptions [E] selects. *)
Definition try_except {A : Type} (body : M A) (E : Exception -> bool)
    (handler : M A) : M A :=
  fun t =>
    match body t with
    | (Raises e, t') => if E e then handler t' else (Raises e, t')
    | r => r
    end.

(** [connection.request(...)]: the request joins the trace, whether the
    connection answers or raises. *)
Definition connection_request (connection : Connection) (r : Request)
  : M Response :=
  fun t => (match connection t r with
            | inl e => Raises e
            | inr resp => Returns resp
            end, t ++ [Requested r]).

(** [time.sleep(seconds)]. *)
Definition time_sleep (seconds : Q) : M unit :=
  fun t => (Returns tt, t ++ [Slept seconds]).

(** ** [base.RestService] *)
Module base.

Record RestService : Type := mkRestService {
  connection : Connection;
  base_uri : string
}.

(** Modelled from the spec: [_format_url] is absent from the sources;
    the wire contract names the resources [jobs/ingest],
    [jobs/ingest/{id}] and [jobs/ingest/{id}/batches], that is the base
    URI of the service, followed by [/] and the sub-resource when there
    is one. *)
Definition _format_url (self : RestService) (uri : option string)
  : string :=
  match uri with
  | None => base_uri self
  | Some u => (base_uri self ++ "/" ++ u)%string
  end.

(** Modelled from the spec: the helpers [_get], [_post], [_put],
    [_patch] and [_delete] are absent from the sources; they send the
    request of their method to the service's resource and return the
    "parsed JSON body"; a body that does not parse raises
    [JSONDecodeError], the error [Job.upload] expects from [_put]. *)
Definition _request (self : RestService) (m : Method)
    (uri : option string) (json : option pyval) (data : option string)
    (headers : list (string * string)) : M pyval :=
  resp <- connection_request (connection self)
            {| method := m; url := _format_url self uri;
               json := json; data := data; headers := headers |} ;;
  match json_body resp with
  | Some v => ret v
  | None => raise JSONDecodeError
  end.

Definition _get (self : RestService) : M pyval :=
  _request self GET None None None [].

Definition _post (self : RestService) (json : pyval) : M pyval :=
  _request self POST None (Some json) None [].

Definition _put (self : RestService) (uri : string) (data : string)
    (headers : list (string * string)) : M pyval :=
  _request self PUT (Some uri) None (Some data) headers.

Definition _patch (self : RestService) (json : pyval) : M pyval :=
  _request self PATCH None (Some json) None [].

Definition _delete (self : RestService) : M pyval :=
  _request self DELETE None None None [].

End base.

(** ** [const] and [models] *)
Module const.

(** Modelled from the spec: the module [const] is absent from the
    sources.  The state-patch request carries the value
    ["UploadComplete"], and "done" is any of JobComplete, Failed,
    Aborted. *)
Definition BULK_STATE_UPLOAD_COMPLETE : string := "UploadComplete".

Definition BULK_STATES_DONE : list string :=
  ["JobComplete"; "Failed"; "Aborted"].

End const.

Module models.

(** Modelled from the spec: the module [models] is absent from the
    sources.  A result record is a success carrying the record id, or a
    failure carrying the record id and the error text. *)
Inductive ResultRecord : Type :=
| SuccessResultRecord (record_id : string)
| FailResultRecord (record_id : string) (message : string).

End models.

(** ** [class Job(base.RestService)] *)
Module Job.
Section Job.

(** The values the sources import but do not contain:
    [const.BULK_STATES_FAIL], [config.POLL_SLEEP_SECONDS] and
    [bulk_utils.FilePreparer(entries).get_csv_string()], a pure
    function of the entries that may raise. *)
Variable BULK_STATES_FAIL : list string.
Variable POLL_SLEEP_SECONDS : Q.
Variable get_csv_string : list pyval -> Exception + string.

Record t : Type := mkJob {
  rest : base.RestService;
  job_id : string
}.

(** [Job(connection, job_id)]; the base URI is
    ['jobs/ingest/' + job_id], a [TypeError] unless [job_id] is a
    string. *)
Definition init (connection : Connection) (job_id : pyval)
  : Exception + t :=
  match job_id with
  | PStr id =>
      inr {| rest := {| base.connection := connection;
                        base.base_uri := ("jobs/ingest/" ++ id)%string |};
             job_id := id |}
  | _ => inl TypeError
  end.

Definition _set_state (self : t) (new_state : string) : M pyval :=
  base._patch (rest self) (PDict [("state", PStr new_state)]).

Definition _prepare_data (entries : list pyval) : M string :=
  lift (get_csv_string entries).

Definition upload (self : t) (entries : list pyval) : M bool :=
  try_except
    (data <- _prepare_data entries ;;
     base._put (rest self) "batches" data
               [("Content-Type", "text/csv")] ;;
     ret tt)
    is_JSONDecodeError
    (ret tt) ;;
  _set_state self const.BULK_STATE_UPLOAD_COMPLETE ;;
  ret true.

Definition close (self : t) : M pyval := _set_state self "UploadComplete".

Definition abort (self : t) : M pyval := _set_state self "Aborted".

Definition delete (self : t) : M pyval := base._delete (rest self).

Definition info (self : t) : M pyval := base._get (rest self).

Definition get_state (self : t) : M pyval :=
  i <- info self ;;
  lift (py_get i "state").

Definition is_done (self : t) : M bool :=
  s <- get_state self ;;
  ret (py_in s const.BULK_STATES_DONE).

Definition _get_results {A : Type} (self : t) (uri : string)
    (callback : list string -> Exception + A) : M (list A) :=
  resp <- connection_request (base.connection (rest self))
            {| method := GET;
               url := base._format_url (rest self) (Some uri);
               json := None; data := None; headers := [] |} ;;
  let result := text resp in
  let reader := csv.StringIO result in
  reader' <- lift (csv.next_default reader) ;;
  lift (csv.comprehension callback reader').

(** [lambda x: models.SuccessResultRecord(x[0])] *)
Definition success_callback (x : list string)
  : Exception + models.ResultRecord :=
  match py_index x 0 with
  | inl e => inl e
  | inr x0 => inr (models.SuccessResultRecord x0)
  end.

(** [lambda x: models.FailResultRecord(x[0], x[1])] *)
Definition fail_callback (x : list string)
  : Exception + models.ResultRecord :=
  match py_index x 0 with
  | inl e => inl e
  | inr x0 =>
      match py_index x 1 with
      | inl e => inl e
      | inr x1 => inr (models.FailResultRecord x0 x1)
      end
  end.

Definition get_successful_results (self : t)
  : M (list models.ResultRecord) :=
  _get_results self "successfulResults" success_callback.

Definition get_failed_results (self : t)
  : M (list models.ResultRecord) :=
  _get_results self "failedResults" fail_callback.

(** [def get_unprocessed_records(self)], called with the given
    arguments. *)
Definition get_unprocessed_records (self : t) (args : list pyval)
    (kwargs : list (string * pyval)) : M (list models.ResultRecord) :=
  if binds_self args kwargs
  then raise NotImplementedError
  else raise TypeError.

(** [while not self.is_done(): time.sleep(config.POLL_SLEEP_SECONDS)],
    cut after [fuel] checks. *)
Fixpoint poll (fuel : nat) (self : t) : M unit :=
  match fuel with
  | O => diverge
  | S fuel' =>
      done <- is_done self ;;
      if done then ret tt
      else time_sleep POLL_SLEEP_SECONDS ;; poll fuel' self
  end.

Definition wait (fuel : nat) (self : t) : M (list models.ResultRecord) :=
  poll fuel self ;;
  s <- get_state self ;;
  (if py_in s BULK_STATES_FAIL
   then i <- info self ;;
        message <- lift (py_get i "errorMessage") ;;
        raise (BulkJobFailedError message)
   else ret tt) ;;
  failed <- get_failed_results self ;;
  successful <- get_successful_results self ;;
  ret (failed ++ successful).

End Job.
End Job.

(** ** [class Bulk(base.RestService)] *)
Module Bulk.
Section Bulk.

Variable BULK_STATES_FAIL : list string.
Variable POLL_SLEEP_SECONDS : Q.
Variable get_csv_string : list pyval -> Exception + string.

Definition t : Type := base.RestService.

Definition init (connection : Connection) : t :=
  {| base.connection := connection; base.base_uri := "jobs/ingest" |}.

Definition _create_job (self : t) (operation : string)
    (object_name : string) (external_id_field_name : pyval) : M Job.t :=
  result <- base._post self
              (PDict [("columnDelimiter", PStr "COMMA");
                      ("contentType", PStr "CSV");
                      ("lineEnding", PStr "LF");
                      ("object", PStr object_name);
                      ("operation", PStr operation);
                      ("externalIdFieldName", external_id_field_name)]) ;;
  id <- lift (py_get result "id") ;;
  lift (Job.init (base.connection self) id).

(** [external_id_field_name] is [None] unless the caller gives one. *)
Definition _execute_operation (fuel : nat) (self : t)
    (operation : string) (object_name : string) (entries : list pyval)
    (external_id_field_name : pyval) : M (list models.ResultRecord) :=
  job_instance <- _create_job self operation object_name
                              external_id_field_name ;;
  Job.upload get_csv_string job_instance entries ;;
  Job.wait BULK_STATES_FAIL POLL_SLEEP_SECONDS fuel job_instance.

Definition insert (fuel : nat) (self : t) (object_name : string)
    (entries : list pyval) : M (list models.ResultRecord) :=
  _execute_operation fuel self "insert" object_name entries PNone.

Definition update (fuel : nat) (self : t) (object_name : string)
    (entries : list pyval) : M (list models.ResultRecord) :=
  _execute_operation fuel self "update" object_name entries PNone.

(** [external_id_field_name: str = 'Id']: [None] here is the argument
    left out. *)
Definition upsert (fuel : nat) (self : t) (object_name : string)
    (entries : list pyval) (external_id_field_name : option string)
  : M (list models.ResultRecord) :=
  _execute_operation fuel self "upsert" object_name entries
    (PStr (match external_id_field_name with
           | Some name => name
           | None => "Id"
           end)).

(** [def select(self, **kwargs)], called with the given arguments. *)
Definition select (self : t) (args : list pyval)
    (kwargs : list (string * pyval)) : M (list models.ResultRecord) :=
  if binds_self_kwargs args kwargs
  then raise NotImplementedError
  else raise TypeError.

Definition delete (fuel : nat) (self : t) (object_name : string)
    (ids : list string) : M (list models.ResultRecord) :=
  _execute_operation fuel self "delete" object_name
    (map (fun id => PDict [("Id", PStr id)]) ids) PNone.

End Bulk.
End Bulk.

(** ** [class BulkObject] *)
Module BulkObject.
Section BulkObject.

Variable BULK_STATES_FAIL : list string.
Variable POLL_SLEEP_SECONDS : Q.
Variable get_csv_string : list pyval -> Exception + string.

Record t : Type := mkBulkObject {
  object_name : string;
  bulk_service : Bulk.t
}.

Definition init (object_name : string) (connection : Connection) : t :=
  {| object_name := object_name; bulk_service := Bulk.init connection |}.

Definition insert (fuel : nat) (self : t) (entries : list pyval) :=
  Bulk.insert BULK_STATES_FAIL POLL_SLEEP_SECONDS get_csv_string
    fuel (bulk_service self) (object_name self) entries.

Definition delete (fuel : nat) (self : t) (ids : list string) :=
  Bulk.delete BULK_STATES_FAIL POLL_SLEEP_SECONDS get_csv_string
    fuel (bulk_service self) (object_name self) ids.

Definition update (fuel : nat) (self : t) (entries : list pyval) :=
  Bulk.update BULK_STATES_FAIL POLL_SLEEP_SECONDS get_csv_string
    fuel (bulk_service self) (object_name self) entries.

(** The default ['Id'] is made explicit before the call. *)
Definition upsert (fuel : nat) (self : t) (entries : list pyval)
    (external_id_field_name : option string) :=
  Bulk.upsert BULK_STATES_FAIL POLL_SLEEP_SECONDS get_csv_string
    fuel (bulk_service self) (object_name self) entries
    (Some (match external_id_field_name with
           | Some name => name
           | None => "Id"
           end)).

End BulkObject.
End BulkObject.

(** ** Requests and observations used in the statements *)

(** The request behind [info()], [get_state()] and [is_done()]. *)
Definition status_request (job : Job.t) : Request :=
  {| method := GET; url := base.base_uri (Job.rest job);
     json := None; data := None; headers := [] |}.

(** The request behind [_get_results(uri, ...)]. *)
Definition results_request (job : Job.t) (uri : string) : Request :=
  {| method := GET; url := base._format_url (Job.rest job) (Some uri);
     json := None; data := None; headers := [] |}.

(** The request behind [_set_state(new_state)]. *)
Definition state_request (job : Job.t) (new_state : string) : Request :=
  {| method := PATCH; url := base.base_uri (Job.rest job);
     json := Some (PDict [("state", PStr new_state)]);
     data := None; headers := [] |}.

(** The request [upload] sends for a prepared payload. *)
Definition batches_request (job : Job.t) (payload : string) : Request :=
  {| method := PUT; url := base._format_url (Job.rest job) (Some "batches");
     json := None; data := Some payload;
     headers := [("Content-Type", "text/csv")] |}.

(** [n] rounds of the polling loop that found the job not done: a status
    check, then a pause. *)
Fixpoint polls (seconds : Q) (job : Job.t) (n : nat) : Trace :=
  match n with
  | O => []
  | S n' => Requested (status_request job) :: Slept seconds
            :: polls seconds job n'
  end.

Definition is_status_check (job : Job.t) (e : Event) : bool :=
  match e with
  | Requested r =>
      match method r with
      | GET => String.eqb (url r) (base.base_uri (Job.rest job))
      | _ => false
      end
  | Slept _ => false
  end.

(** Number of status checks of [job] in a trace. *)
Definition status_checks (job : Job.t) (t : Trace) : nat :=
  List.length (filter (is_status_check job) t).

Definition is_request (e : Event) : bool :=
  match e with
  | Requested _ => true
  | Slept _ => false
  end.

(** A status check made after the events [t] finds the job in [state]. *)
Definition observes (job : Job.t) (t : Trace) (state : pyval) : Prop :=
  Job.get_state job t
  = (Returns state, t ++ [Requested (status_request job)]).

(** [info()] after the events [t] answers with a descriptor whose
    [state] and [errorMessage] are the given ones. *)
Definition describes (job : Job.t) (t : Trace) (state errorMessage : pyval)
  : Prop :=
  exists doc,
    Job.info job t = (Returns doc, t ++ [Requested (status_request job)])
    /\ py_get doc "state" = inr state
    /\ py_get doc "errorMessage" = inr errorMessage.

(** Job creation returns a job, [upload] of the entries to that job then
    returns, and [wait()] on that job then returns [rs], the trace going
    from [t] to [t'] through the three steps in this order. *)
Definition create_upload_wait (FAIL : list string) (POLL : Q)
    (get_csv : list pyval -> Exception + string) (fuel : nat)
    (self : Bulk.t) (operation object_name : string)
    (entries : list pyval) (external_id : pyval)
    (t : Trace) (rs : list models.ResultRecord) (t' : Trace) : Prop :=
  exists job t1 t2,
    Bulk._create_job self operation object_name external_id t
    = (Returns job, t1)
    /\ Job.upload get_csv job entries t1 = (Returns true, t2)
    /\ Job.wait FAIL POLL fuel job t2 = (Returns rs, t').

(** The request behind [_create_job]. *)
Definition create_request (self : Bulk.t) (operation object_name : string)
    (external_id : pyval) : Request :=
  {| method := POST; url := base.base_uri self;
     json := Some (PDict [("columnDelimiter", PStr "COMMA");
                          ("contentType", PStr "CSV");
                          ("lineEnding", PStr "LF");
                          ("object", PStr object_name);
                          ("operation", PStr operation);
                          ("externalIdFieldName", external_id)]);
     data := None; headers := [] |}.

(** [list(csv.reader(io.StringIO(text)))]: every row of a CSV text. *)
Definition csv_rows (text : string) : Exception + list (list string) :=
  csv.comprehension (fun x => inr x) (csv.StringIO text).

Definition is_Fail (r : models.ResultRecord) : bool :=
  match r with
  | models.FailResultRecord _ _ => true
  | models.SuccessResultRecord _ => false
  end.

(** A callback applied to rows in order, up to its first exception. *)
Fixpoint map_callback {A : Type} (callback : list string -> Exception + A)
    (rows : list (list string)) : Exception + list A :=
  match rows with
  | [] => inr []
  | x :: rows' =>
      match callback x with
      | inl e => inl e
      | inr a =>
          match map_callback callback rows' with
          | inl e => inl e
          | inr l => inr (a :: l)
          end
      end
  end.

(** The records of a row that is long enough: column 0, and columns 0
    and 1. *)
Definition success_of_row (x : list string) : models.ResultRecord :=
  models.SuccessResultRecord (nth 0 x "").

Definition fail_of_row (x : list string) : models.ResultRecord :=
  models.FailResultRecord (nth 0 x "") (nth 1 x "").

(** ** A scripted remote platform, to run the client on

    The job ["7505e000000abcd"] reports the given states at its
    successive status checks (the last one for ever after), answers the
    upload with an empty body, and serves the two result sets. *)
Module Scenario.

Definition NL : string := String "010" "".

Definition the_id : string := "7505e000000abcd".

Definition job_url : string := "jobs/ingest/7505e000000abcd".

Definition is_get_of (u : string) (e : Event) : bool :=
  match e with
  | Requested r =>
      match method r with
      | GET => String.eqb (url r) u
      | _ => false
      end
  | Slept _ => false
  end.

Definition descriptor (state : string) (errorMessage : pyval) : pyval :=
  PDict [("id", PStr the_id); ("state", PStr state);
         ("errorMessage", errorMessage)].

Definition remote (states : list string) (last : string)
    (errorMessage : pyval) (failed successful : string) : Connection :=
  fun t r =>
    match method r with
    | POST =>
        inr {| text := ""; json_body := Some (descriptor "Open" PNone) |}
    | PUT => inr {| text := ""; json_body := None |}
    | PATCH =>
        inr {| text := "";
               json_body := Some (descriptor "UploadComplete" PNone) |}
    | DELETE => inr {| text := ""; json_body := None |}
    | GET =>
        if String.eqb (url r) job_url then
          let k := List.length (filter (is_get_of job_url) t) in
          inr {| text := "";
                 json_body :=
                   Some (descriptor (nth k states last) errorMessage) |}
        else if String.eqb (url r) (job_url ++ "/failedResults")%string
        then inr {| text := failed; json_body := None |}
        else if String.eqb (url r) (job_url ++ "/successfulResults")%string
        then inr {| text := successful; json_body := None |}
        else inl (TransportError "404 Not Found")
    end.

Definition job (connection : Connection) : Job.t :=
  {| Job.rest := {| base.connection := connection;
                    base.base_uri := job_url |};
     Job.job_id := the_id |}.

Definition failed_csv : string :=
  ("sf__Id,sf__Error" ++ NL ++ "001,BAD" ++ NL)%string.

Definition successful_csv : string :=
  ("sf__Id,sf__Created" ++ NL ++ "002,true" ++ NL ++ "003,true" ++ NL)%string.

(** A platform whose job completes at the third status check. *)
Definition completing : Connection :=
  remote ["Open"; "UploadComplete"] "JobComplete" PNone
         failed_csv successful_csv.

(** A platform whose job fails at the second status check. *)
Definition failing : Connection :=
  remote ["UploadComplete"] "Failed" (PStr "X") "" "".

(** A platform whose result sets have a one-column failure row and a
    blank line. *)
Definition malformed : Connection :=
  remote [] "JobComplete" PNone
         ("sf__Id,sf__Error" ++ NL ++ "001" ++ NL)%string
         ("sf__Id,sf__Created" ++ NL ++ NL)%string.

Definition malformed_job : Job.t := job malformed.

Definition completing_job : Job.t := job completing.

Definition failing_job : Job.t := job failing.

Definition BULK_STATES_FAIL : list string := ["Aborted"; "Failed"].

Definition POLL_SLEEP_SECONDS : Q := 2 # 1.

Definition cell (v : pyval) : string :=
  match v with
  | PStr s => s
  | _ => ""
  end.

Definition line (e : pyval) : string :=
  match e with
  | PDict d =>
      (String.concat "," (map (fun kv => cell (snd kv)) d) ++ NL)%string
  | _ => NL
  end.

(** A small CSV preparer standing in for [bulk_utils.FilePreparer]: the
    keys of the first entry as header, then one line per entry. *)
Definition get_csv_string (entries : list pyval) : Exception + string :=
  match entries with
  | PDict d :: _ =>
      inr (String.concat "," (map fst d) ++ NL
           ++ String.concat "" (map line entries))%string
  | _ => inl (EncodingError "nothing to encode")
  end.

End Scenario.

(** ** Vocabulary of the further properties *)

(** A computation only adds events that satisfy [P]. *)
Definition emits {A : Type} (P : Event -> Prop) (m : M A) : Prop :=
  forall t, exists ext, snd (m t) = t ++ ext /\ Forall P ext.

(** An event that leaves the remote job in place: not a DELETE, no state
    patch other than the one to [UploadComplete], and no pause other
    than the configured one. *)
Definition keeps_job (POLL : Q) (e : Event) : Prop :=
  match e with
  | Requested r =>
      method r <> DELETE
      /\ (method r = PATCH ->
          json r = Some (PDict [("state", PStr "UploadComplete")]))
  | Slept seconds => seconds = POLL
  end.

(** Number of pauses in a trace. *)
Definition sleeps (t : Trace) : nat :=
  List.length (filter (fun e => negb (is_request e)) t).

(** A field the reader takes as it is: no delimiter, no quote, no line
    break, and within the field limit. *)
Definition plain_char (c : ascii) : bool :=
  negb (Ascii.eqb c csv.delimiter || Ascii.eqb c csv.quotechar
        || csv.is_newline c).

Fixpoint plain (s : string) : bool :=
  match s with
  | EmptyString => true
  | String c s' => plain_char c && plain s'
  end.

Definition plain_field (s : string) : bool :=
  plain s && (N.of_nat (String.length s) <=? csv.field_limit)%N.

(** A row written as one line: its fields separated by commas, ended by
    a line feed; and a text of such lines. *)
Definition csv_line (fields : list string) : string :=
  (String.concat "," fields ++ String csv.LF "")%string.

Definition csv_text (rows : list (list string)) : string :=
  String.concat "" (map csv_line rows).

(** A row of at least two plain fields. *)
Definition plain_row (row : list string) : bool :=
  Nat.leb 2 (List.length row) && forallb plain_field row.

(** The first [n] status checks made while polling from [t0] find the
    job not done. *)
Definition not_done_for (POLL : Q) (job : Job.t) (t0 : Trace) (n : nat)
  : Prop :=
  forall k, k < n ->
    Job.is_done job (t0 ++ polls POLL job k)
    = (Returns false,
       (t0 ++ polls POLL job k) ++ [Requested (status_request job)]).

(** ** Remote platforms that misbehave *)
Module Faults.

(** The job stays in progress for ever. *)
Definition stuck : Connection :=
  Scenario.remote [] "InProgress" PNone "" "".

Definition stuck_job : Job.t := Scenario.job stuck.

(** The creation answer is a document without [id]. *)
Definition no_id : Connection :=
  fun t r =>
    match method r with
    | POST => inr {| text := "";
                     json_body := Some (PDict [("state", PStr "Open")]) |}
    | _ => Scenario.completing t r
    end.

(** The job is aborted, and its descriptor carries no [errorMessage]. *)
Definition aborted : Connection :=
  fun t r =>
    match method r with
    | GET => inr {| text := "";
                    json_body := Some (PDict [("state", PStr "Aborted")]) |}
    | _ => Scenario.completing t r
    end.

Definition aborted_job : Job.t := Scenario.job aborted.

(** The second status check meets a transport failure. *)
Definition flaky : Connection :=
  fun t r =>
    match method r with
    | GET =>
        if String.eqb (url r) Scenario.job_url
           && Nat.eqb (List.length
                         (filter (Scenario.is_get_of Scenario.job_url) t)) 1
        then inl (TransportError "503 Service Unavailable")
        else Scenario.completing t r
    | _ => Scenario.completing t r
    end.

Definition flaky_job : Job.t := Scenario.job flaky.

(** The job is complete at once. *)
Definition complete : Connection :=
  Scenario.remote [] "JobComplete" PNone
                  Scenario.failed_csv Scenario.successful_csv.

Definition complete_job : Job.t := Scenario.job complete.

End Faults.

(** * Properties *)

(** ** Computations only add to the trace *)

Definition extends {A : Type} (m : M A) : Prop :=
  forall t, exists ext, snd (m t) = t ++ ext.

Create HintDb trace discriminated.

Lemma extends_ret {A : Type} (a : A) : extends (ret a).
Proof. intros t. exists []. simpl. now rewrite app_nil_r. Qed.

Lemma extends_raise {A : Type} (e : Exception) : extends (@raise A e).
Proof. intros t. exists []. simpl. now rewrite app_nil_r. Qed.

Lemma extends_diverge {A : Type} : extends (@diverge A).
Proof. intros t. exists []. simpl. now rewrite app_nil_r. Qed.

Lemma extends_lift {A : Type} (r : Exception + A) : extends (lift r).
Proof. destruct r; [apply extends_raise | apply extends_ret]. Qed.

Lemma extends_bind {A B : Type} (m : M A) (k : A -> M B) :
  extends m -> (forall a, extends (k a)) -> extends (bind m k).
Proof.
  intros Hm Hk t. unfold bind.
  destruct (Hm t) as [ext1 H1].
  destruct (m t) as [[a|e|] t']; simpl in H1; subst t'.
  - destruct (Hk a (t ++ ext1)) as [ext2 H2].
    exists (ext1 ++ ext2). now rewrite H2, app_assoc.
  - now exists ext1.
  - now exists ext1.
Qed.

Lemma extends_try_except {A : Type} (body handler : M A) E :
  extends body -> extends handler -> extends (try_except body E handler).
Proof.
  intros Hb Hh t. unfold try_except.
  destruct (Hb t) as [ext1 H1].
  destruct (body t) as [[a|e|] t']; simpl in H1; subst t'.
  - now exists ext1.
  - destruct (E e).
    + destruct (Hh (t ++ ext1)) as [ext2 H2].
      exists (ext1 ++ ext2). now rewrite H2, app_assoc.
    + now exists ext1.
  - now exists ext1.
Qed.

Lemma extends_connection_request c r : extends (connection_request c r).
Proof. intros t. now exists [Requested r]. Qed.

Lemma extends_time_sleep s : extends (time_sleep s).
Proof. intros t. now exists [Slept s]. Qed.

Lemma extends_if {A : Type} (b : bool) (m1 m2 : M A) :
  extends m1 -> extends m2 -> extends (if b then m1 else m2).
Proof. now destruct b. Qed.

#[global] Hint Resolve extends_ret extends_raise extends_diverge extends_lift
  extends_try_except extends_connection_request extends_time_sleep
  extends_if : trace.

Ltac trace_step :=
  first [ solve [auto with trace]
        | match goal with
          | |- extends (match ?x with _ => _ end) => destruct x
          end
        | apply extends_bind; [| intro] ].

Ltac trace_auto := repeat trace_step.

Lemma extends_request self m uri js d h :
  extends (base._request self m uri js d h).
Proof. unfold base._request. trace_auto. Qed.

Lemma extends_info job : extends (Job.info job).
Proof. apply extends_request. Qed.

Lemma extends_get_state job : extends (Job.get_state job).
Proof. unfold Job.get_state. pose proof (extends_info job). trace_auto. Qed.

Lemma extends_get_results {A : Type} job uri
    (callback : list string -> Exception + A) :
  extends (Job._get_results job uri callback).
Proof. unfold Job._get_results. trace_auto. Qed.

Lemma extends_poll POLL job fuel : extends (Job.poll POLL fuel job).
Proof.
  induction fuel as [|fuel IH]; simpl; [apply extends_diverge|].
  unfold Job.is_done. pose proof (extends_get_state job). trace_auto.
Qed.

Lemma extends_wait FAIL POLL job fuel :
  extends (Job.wait FAIL POLL fuel job).
Proof.
  unfold Job.wait, Job.get_failed_results, Job.get_successful_results.
  pose proof (extends_poll POLL job fuel).
  pose proof (extends_get_state job).
  pose proof (extends_info job).
  pose proof (extends_get_results job "failedResults" Job.fail_callback).
  pose proof
    (extends_get_results job "successfulResults" Job.success_callback).
  trace_auto.
Qed.

Lemma extends_set_state job s : extends (Job._set_state job s).
Proof. apply extends_request. Qed.

(** ** Status checks *)

Lemma request_trace self m uri js d h t :
  snd (base._request self m uri js d h t)
  = t ++ [Requested {| method := m; url := base._format_url self uri;
                       json := js; data := d; headers := h |}].
Proof.
  unfold base._request, bind, connection_request.
  destruct (base.connection self t _) as [e|resp]; [reflexivity|].
  destruct (json_body resp); reflexivity.
Qed.

Lemma request_run self m uri js d h t :
  base._request self m uri js d h t
  = (match base.connection self t
             {| method := m; url := base._format_url self uri;
                json := js; data := d; headers := h |} with
     | inl e => Raises e
     | inr resp =>
         match json_body resp with
         | Some v => Returns v
         | None => Raises JSONDecodeError
         end
     end,
     t ++ [Requested {| method := m; url := base._format_url self uri;
                        json := js; data := d; headers := h |}]).
Proof.
  unfold base._request, bind, connection_request.
  destruct (base.connection self t _) as [e|resp]; [reflexivity|].
  destruct (json_body resp); reflexivity.
Qed.

Lemma set_state_run job new_state t :
  Job._set_state job new_state t
  = (match base.connection (Job.rest job) t
             (state_request job new_state) with
     | inl e => Raises e
     | inr resp =>
         match json_body resp with
         | Some v => Returns v
         | None => Raises JSONDecodeError
         end
     end, t ++ [Requested (state_request job new_state)]).
Proof. apply request_run. Qed.

Lemma info_trace job t :
  snd (Job.info job t) = t ++ [Requested (status_request job)].
Proof. apply request_trace. Qed.

Lemma get_state_trace job t :
  snd (Job.get_state job t) = t ++ [Requested (status_request job)].
Proof.
  unfold Job.get_state, bind. pose proof (info_trace job t) as H.
  destruct (Job.info job t) as [[doc|e|] t']; simpl in H; subst t'; auto.
  destruct (py_get doc "state"); reflexivity.
Qed.

Lemma is_done_trace job t :
  snd (Job.is_done job t) = t ++ [Requested (status_request job)].
Proof.
  unfold Job.is_done, bind. pose proof (get_state_trace job t) as H.
  destruct (Job.get_state job t) as [[s|e|] t']; simpl in H; subst t'; auto.
Qed.

Lemma is_done_observes job t s :
  observes job t s ->
  Job.is_done job t
  = (Returns (py_in s const.BULK_STATES_DONE),
     t ++ [Requested (status_request job)]).
Proof. intros H. unfold Job.is_done, bind. now rewrite H. Qed.

Lemma is_done_inv job t b t' :
  Job.is_done job t = (Returns b, t') ->
  exists s, observes job t s /\ b = py_in s const.BULK_STATES_DONE
            /\ t' = t ++ [Requested (status_request job)].
Proof.
  intros H. pose proof (get_state_trace job t) as Htr.
  unfold Job.is_done, bind in H. unfold observes.
  destruct (Job.get_state job t) as [[s|e|] t1]; simpl in Htr; subst t1;
    try discriminate H.
  injection H as <- <-. now exists s.
Qed.

Lemma describes_observes job t s m : describes job t s m -> observes job t s.
Proof.
  intros (doc & Hinfo & Hs & _). unfold observes, Job.get_state, bind.
  now rewrite Hinfo, Hs.
Qed.

(** ** The polling loop *)

Lemma polls_snoc POLL job n t :
  t ++ polls POLL job (S n)
  = (t ++ [Requested (status_request job); Slept POLL]) ++ polls POLL job n.
Proof. simpl. now rewrite <- app_assoc. Qed.

Lemma poll_not_done POLL job fuel t :
  Job.is_done job t = (Returns false, t ++ [Requested (status_request job)]) ->
  Job.poll POLL (S fuel) job t
  = Job.poll POLL fuel job
      (t ++ [Requested (status_request job); Slept POLL]).
Proof.
  intros H. simpl. unfold bind at 1. rewrite H.
  unfold bind, time_sleep. now rewrite <- app_assoc.
Qed.

Lemma poll_done POLL job fuel t t' :
  Job.is_done job t = (Returns true, t') ->
  Job.poll POLL (S fuel) job t = (Returns tt, t').
Proof. intros H. simpl. unfold bind. now rewrite H. Qed.

(** [n] checks that find the job not done cost [n] rounds. *)
Lemma poll_forward POLL job n : forall fuel t,
  (forall k, k < n ->
     Job.is_done job (t ++ polls POLL job k)
     = (Returns false,
        (t ++ polls POLL job k) ++ [Requested (status_request job)])) ->
  Job.poll POLL (n + fuel) job t
  = Job.poll POLL fuel job (t ++ polls POLL job n).
Proof.
  induction n as [|n IH]; intros fuel t H.
  - simpl. now rewrite app_nil_r.
  - change (S n + fuel) with (S (n + fuel)).
    rewrite poll_not_done.
    + rewrite IH; [now rewrite polls_snoc|].
      intros k Hk. rewrite <- polls_snoc. apply H. lia.
    + specialize (H 0 ltac:(lia)). simpl in H.
      now rewrite app_nil_r in H.
Qed.

(** A loop that ends normally has seen the job done, after some number
    of rounds that each found it not done. *)
Lemma poll_inv POLL job fuel : forall t u t',
  Job.poll POLL fuel job t = (Returns u, t') ->
  exists n,
    n < fuel
    /\ (forall k, k < n ->
          Job.is_done job (t ++ polls POLL job k)
          = (Returns false,
             (t ++ polls POLL job k) ++ [Requested (status_request job)]))
    /\ Job.is_done job (t ++ polls POLL job n) = (Returns true, t')
    /\ t' = (t ++ polls POLL job n) ++ [Requested (status_request job)].
Proof.
  induction fuel as [|fuel IH]; intros t u t' H; [discriminate H|].
  simpl in H. unfold bind at 1 in H.
  pose proof (is_done_trace job t) as Htr.
  destruct (Job.is_done job t) as [[[|]|e|] t1] eqn:Hd; simpl in Htr;
    subst t1; try discriminate H.
  - injection H as _ <-. exists 0. simpl. rewrite app_nil_r.
    repeat split; auto; lia.
  - unfold bind at 1, time_sleep in H. rewrite <- app_assoc in H.
    simpl in H. apply IH in H. destruct H as (n & Hn & Hk & Hdone & Ht').
    exists (S n). rewrite polls_snoc. repeat split; auto; try lia.
    intros [|k] Hlt.
    + simpl. now rewrite app_nil_r.
    + rewrite polls_snoc. apply Hk. lia.
Qed.

(** ** The rows of a result set *)

Lemma comprehension_unfold {A : Type}
    (callback : list string -> Exception + A) lines :
  csv.comprehension callback lines
  = match csv.Reader_iternext lines with
    | csv.StopIteration => inr []
    | csv.IterRaise e => inl e
    | csv.Yield x rest =>
        match callback x with
        | inl e => inl e
        | inr a =>
            match csv.comprehension callback rest with
            | inl e => inl e
            | inr l => inr (a :: l)
            end
        end
    end.
Proof.
  funelim (csv.comprehension callback lines);
    try clear Hind;
    match goal with
    | E : csv.Reader_iternext lines = _ |- _ => rewrite E
    end;
    repeat match goal with
           | E : _ = inl _ |- _ => rewrite E
           | E : _ = inr _ |- _ => rewrite E
           end;
    reflexivity.
Qed.

(** When the whole text parses, a comprehension over its reader is the
    callback applied to its rows in order. *)
Lemma comprehension_rows {A : Type}
    (callback : list string -> Exception + A) lines :
  forall rows,
    csv.comprehension (fun x => inr x) lines = inr rows ->
    csv.comprehension callback lines = map_callback callback rows.
Proof.
  funelim (csv.comprehension callback lines);
    intros rows Hrows; rewrite comprehension_unfold in Hrows;
    match goal with
    | E : csv.Reader_iternext lines = _ |- _ => rewrite E in Hrows
    end;
    try discriminate Hrows;
    try (injection Hrows as <-; reflexivity);
    destruct (csv.comprehension (fun x => inr x) rest) as [e'|rows'];
    try discriminate Hrows; injection Hrows as <-; simpl;
    match goal with
    | E : callback _ = _ |- _ => rewrite E
    end;
    try reflexivity;
    rewrite <- (Hind rows' eq_refl);
    match goal with
    | E : csv.comprehension callback _ = _ |- _ => now rewrite E
    end.
Qed.

Lemma next_default_rows lines rows :
  csv.comprehension (fun x => inr x) lines = inr rows ->
  exists lines',
    csv.next_default lines = inr lines'
    /\ csv.comprehension (fun x => inr x) lines' = inr (tl rows).
Proof.
  intros H. pose proof H as H0. rewrite comprehension_unfold in H.
  unfold csv.next_default.
  destruct (csv.Reader_iternext lines) as [|x rest|e].
  - injection H as H. subst rows. exists lines. split; [reflexivity|exact H0].
  - destruct (csv.comprehension _ rest) as [e|l] eqn:Hrest;
      [discriminate H|].
    injection H as H. subst rows. exists rest. split; [reflexivity|exact Hrest].
  - discriminate H.
Qed.

Lemma comprehension_forallb {A : Type}
    (callback : list string -> Exception + A) (P : A -> bool) lines :
  (forall x a, callback x = inr a -> P a = true) ->
  forall l, csv.comprehension callback lines = inr l -> forallb P l = true.
Proof.
  intros HP. funelim (csv.comprehension callback lines);
    intros l' Hl; try discriminate Hl;
    injection Hl as <-; [reflexivity|].
  simpl. rewrite (HP _ _ Heq0). simpl. now apply Hind.
Qed.

Lemma map_fail_callback rows :
  Forall (fun x => 2 <= List.length x) rows ->
  map_callback Job.fail_callback rows = inr (map fail_of_row rows).
Proof.
  induction 1 as [|x rows Hx _ IH]; [reflexivity|].
  simpl. rewrite IH.
  destruct x as [|x0 [|x1 x]]; simpl in Hx; try lia. reflexivity.
Qed.

Lemma map_success_callback rows :
  Forall (fun x => 1 <= List.length x) rows ->
  map_callback Job.success_callback rows = inr (map success_of_row rows).
Proof.
  induction 1 as [|x rows Hx _ IH]; [reflexivity|].
  simpl. rewrite IH.
  destruct x as [|x0 x]; simpl in Hx; try lia. reflexivity.
Qed.

Lemma map_fail_callback_short rows :
  Exists (fun x => List.length x < 2) rows ->
  map_callback Job.fail_callback rows = inl IndexError.
Proof.
  induction rows as [|x rows IH]; intros H; [inversion H|].
  cbn [map_callback].
  inversion H as [? ? Hx|? ? Hrest]; subst.
  - destruct x as [|x0 [|x1 x]]; simpl in Hx; try lia; reflexivity.
  - destruct (Job.fail_callback x) as [e|r] eqn:E.
    + unfold Job.fail_callback, py_index in E.
      destruct x as [|x0 [|x1 x]]; simpl in E; congruence.
    + now rewrite IH.
Qed.

Lemma map_success_callback_short rows :
  Exists (fun x => List.length x < 1) rows ->
  map_callback Job.success_callback rows = inl IndexError.
Proof.
  induction rows as [|x rows IH]; intros H; [inversion H|].
  cbn [map_callback].
  inversion H as [? ? Hx|? ? Hrest]; subst.
  - destruct x as [|x0 x]; simpl in Hx; try lia; reflexivity.
  - destruct (Job.success_callback x) as [e|r] eqn:E.
    + unfold Job.success_callback, py_index in E.
      destruct x as [|x0 x]; simpl in E; congruence.
    + now rewrite IH.
Qed.

(** ** Fetching a result set *)

Lemma get_results_trace {A : Type} job uri
    (callback : list string -> Exception + A) t :
  snd (Job._get_results job uri callback t)
  = t ++ [Requested (results_request job uri)].
Proof.
  unfold Job._get_results, bind, connection_request, results_request.
  destruct (base.connection (Job.rest job) t _) as [e|resp]; [reflexivity|].
  destruct (csv.next_default _) as [e|lines]; [reflexivity|]. simpl.
  destruct (csv.comprehension callback lines); reflexivity.
Qed.

(** With a text that parses, the result is the callback over every row
    but the first. *)
Lemma get_results_rows {A : Type} job uri
    (callback : list string -> Exception + A) t resp rows :
  base.connection (Job.rest job) t (results_request job uri) = inr resp ->
  csv_rows (text resp) = inr rows ->
  Job._get_results job uri callback t
  = (match map_callback callback (tl rows) with
     | inl e => Raises e
     | inr l => Returns l
     end, t ++ [Requested (results_request job uri)]).
Proof.
  intros Hc Hrows. unfold csv_rows in Hrows.
  destruct (next_default_rows _ _ Hrows) as (lines' & Hnext & Htl).
  unfold Job._get_results, bind, connection_request.
  fold (results_request job uri). rewrite Hc, Hnext. simpl.
  rewrite (comprehension_rows callback _ _ Htl).
  destruct (map_callback callback (tl rows)); reflexivity.
Qed.

Lemma get_results_forallb {A : Type} job uri
    (callback : list string -> Exception + A) (P : A -> bool) t l t' :
  (forall x a, callback x = inr a -> P a = true) ->
  Job._get_results job uri callback t = (Returns l, t') ->
  forallb P l = true.
Proof.
  intros HP H. unfold Job._get_results, bind, connection_request in H.
  destruct (base.connection (Job.rest job) t _) as [e|resp];
    [discriminate H|].
  destruct (csv.next_default _) as [e|lines]; [discriminate H|].
  simpl in H.
  destruct (csv.comprehension callback lines) as [e|l0] eqn:Hl;
    [discriminate H|].
  injection H as <- _. eapply comprehension_forallb; eauto.
Qed.

Lemma fail_callback_is_Fail x a :
  Job.fail_callback x = inr a -> is_Fail a = true.
Proof.
  unfold Job.fail_callback.
  destruct (py_index x 0); [discriminate|].
  destruct (py_index x 1); [discriminate|]. now intros [= <-].
Qed.

Lemma success_callback_is_Success x a :
  Job.success_callback x = inr a -> negb (is_Fail a) = true.
Proof.
  unfold Job.success_callback.
  destruct (py_index x 0); [discriminate|]. now intros [= <-].
Qed.

(** ** Counting status checks *)

Lemma status_checks_app job t1 t2 :
  status_checks job (t1 ++ t2) = status_checks job t1 + status_checks job t2.
Proof. unfold status_checks. now rewrite filter_app, length_app. Qed.

Lemma is_status_check_request job :
  is_status_check job (Requested (status_request job)) = true.
Proof. simpl. apply String.eqb_refl. Qed.

Lemma status_checks_polls POLL job n :
  status_checks job (polls POLL job n) = n.
Proof.
  induction n as [|n IH]; [reflexivity|].
  unfold status_checks in *. cbn [polls filter].
  rewrite is_status_check_request. simpl. now rewrite IH.
Qed.

Lemma status_checks_request job :
  status_checks job [Requested (status_request job)] = 1.
Proof.
  unfold status_checks. cbn [filter].
  now rewrite is_status_check_request.
Qed.

(** A sub-resource of a job is not the job itself. *)
Lemma append_neq (s u : string) : (s ++ "/" ++ u)%string <> s.
Proof.
  induction s as [|c s IH]; simpl; intros H; [discriminate H|].
  injection H as H. now apply IH.
Qed.

Lemma results_request_neq job uri :
  results_request job uri <> status_request job.
Proof.
  unfold results_request, status_request. intros H.
  injection H as H. simpl in H. now apply append_neq in H.
Qed.

Lemma polls_events POLL job n :
  Forall (fun e => e = Requested (status_request job) \/ e = Slept POLL)
         (polls POLL job n).
Proof. induction n; simpl; auto. Qed.

(** ** Job creation and upload *)

Lemma create_job_run (self : Bulk.t) operation object_name external_id t :
  Bulk._create_job self operation object_name external_id t
  = (match base.connection self t
             (create_request self operation object_name external_id) with
     | inl e => Raises e
     | inr resp =>
         match json_body resp with
         | None => Raises JSONDecodeError
         | Some doc =>
             match py_get doc "id" with
             | inl e => Raises e
             | inr id =>
                 match Job.init (base.connection self) id with
                 | inl e => Raises e
                 | inr job => Returns job
                 end
             end
         end
     end,
     t ++ [Requested
             (create_request self operation object_name external_id)]).
Proof.
  unfold Bulk._create_job. unfold bind at 1.
  unfold base._post. rewrite request_run.
  fold (create_request self operation object_name external_id).
  destruct (base.connection self t _) as [e|resp]; [reflexivity|].
  destruct (json_body resp) as [doc|]; [|reflexivity].
  unfold bind, lift.
  destruct (py_get doc "id") as [e|id]; [reflexivity|].
  unfold ret at 1.
  destruct (Job.init (base.connection self) id); reflexivity.
Qed.

Lemma extends_upload get_csv job entries :
  extends (Job.upload get_csv job entries).
Proof.
  unfold Job.upload, Job._prepare_data, base._put.
  pose proof (extends_set_state job const.BULK_STATE_UPLOAD_COMPLETE).
  pose proof (extends_request (Job.rest job) PUT (Some "batches") None).
  apply extends_bind; [|intro; trace_auto].
  apply extends_try_except; trace_auto.
Qed.

(** The first thing [upload] sends is the PUT of the prepared payload. *)
Lemma upload_trace get_csv job entries payload t :
  get_csv entries = inr payload ->
  exists ext,
    snd (Job.upload get_csv job entries t)
    = t ++ Requested (batches_request job payload) :: ext.
Proof.
  intros Hp. unfold Job.upload. unfold bind at 1.
  unfold try_except, Job._prepare_data. unfold bind at 1.
  rewrite Hp. unfold lift, ret at 1. unfold bind at 1.
  unfold base._put. rewrite request_run.
  fold (batches_request job payload).
  assert (Hnext : forall u : unit, exists ext,
            snd ((Job._set_state job const.BULK_STATE_UPLOAD_COMPLETE ;;
                  ret true)
                   (t ++ [Requested (batches_request job payload)]))
            = t ++ Requested (batches_request job payload) :: ext).
  { intros _.
    assert (Hext : extends
              (Job._set_state job const.BULK_STATE_UPLOAD_COMPLETE ;;
               ret true)).
    { pose proof (extends_set_state job const.BULK_STATE_UPLOAD_COMPLETE).
      trace_auto. }
    destruct (Hext (t ++ [Requested (batches_request job payload)]))
      as [ext ->].
    exists ext. now rewrite <- app_assoc. }
  destruct (base.connection (Job.rest job) t _) as [e|resp].
  - destruct (is_JSONDecodeError e); [apply (Hnext tt)|].
    now exists [].
  - destruct (json_body resp); apply (Hnext tt).
Qed.

Lemma execute_operation_requests FAIL POLL get_csv fuel (self : Bulk.t)
    operation object_name entries external_id t :
  (exists ext,
     snd (Bulk._execute_operation FAIL POLL get_csv fuel self operation
            object_name entries external_id t)
     = t ++ Requested (create_request self operation object_name external_id)
            :: ext)
  /\ forall job t1 payload,
       Bulk._create_job self operation object_name external_id t
       = (Returns job, t1) ->
       get_csv entries = inr payload ->
       Bulk._execute_operation FAIL POLL get_csv fuel self operation
         object_name entries external_id t
       = (Job.upload get_csv job entries ;; Job.wait FAIL POLL fuel job) t1
       /\ exists ext,
            snd (Bulk._execute_operation FAIL POLL get_csv fuel self
                   operation object_name entries external_id t)
            = t1 ++ Requested (batches_request job payload) :: ext.
Proof.
  assert (Hrest : forall job, extends
            (Job.upload get_csv job entries ;; Job.wait FAIL POLL fuel job)).
  { intros job. pose proof (extends_upload get_csv job entries).
    pose proof (extends_wait FAIL POLL job fuel). trace_auto. }
  split.
  - unfold Bulk._execute_operation. unfold bind at 1.
    pose proof (create_job_run self operation object_name external_id t)
      as Hc.
    destruct (Bulk._create_job self operation object_name external_id t)
      as [[job| |] t1]; injection Hc as _ ->; try (now exists []).
    destruct (Hrest job
                (t ++ [Requested (create_request self operation object_name
                                                 external_id)]))
      as [ext ->].
    exists ext. now rewrite <- app_assoc.
  - intros job t1 payload Hc Hp.
    assert (Heq : Bulk._execute_operation FAIL POLL get_csv fuel self
                    operation object_name entries external_id t
                  = (Job.upload get_csv job entries ;;
                     Job.wait FAIL POLL fuel job) t1).
    { unfold Bulk._execute_operation. unfold bind at 1. now rewrite Hc. }
    split; [exact Heq|]. rewrite Heq. unfold bind.
    destruct (upload_trace get_csv job entries payload t1 Hp) as [ext1 H1].
    destruct (Job.upload get_csv job entries t1) as [[b| |] t2];
      simpl in H1; subst t2; try (now exists ext1).
    destruct (extends_wait FAIL POLL job fuel
                (t1 ++ Requested (batches_request job payload) :: ext1))
      as [ext2 ->].
    exists (ext1 ++ ext2). now rewrite <- app_assoc.
Qed.

(** * The claims *)

(** C1.  A job whose successive status checks find it [Open], then
    [UploadComplete], then [JobComplete] (a terminal state, so the check
    that follows the loop finds [JobComplete] again): [wait()] makes at
    least two status checks, then behaves as [get_failed_results()]
    followed by [get_successful_results()], and returns exactly when
    both return, with the failed records first and the successful ones
    after them.  [JobComplete] is assumed not to be among the failure
    states. *)
Theorem wait_open_upload_complete FAIL POLL fuel job t0 :
  py_in (PStr "JobComplete") FAIL = false ->
  observes job t0 (PStr "Open") ->
  observes job (t0 ++ polls POLL job 1) (PStr "UploadComplete") ->
  observes job (t0 ++ polls POLL job 2) (PStr "JobComplete") ->
  observes job (t0 ++ polls POLL job 2 ++ [Requested (status_request job)])
           (PStr "JobComplete") ->
  3 <= fuel ->
  Job.wait FAIL POLL fuel job t0
  = (failed <- Job.get_failed_results job ;;
     successful <- Job.get_successful_results job ;;
     ret (failed ++ successful))
      (t0 ++ polls POLL job 2
       ++ [Requested (status_request job); Requested (status_request job)])
  /\ status_checks job t0 + 2
     <= status_checks job (snd (Job.wait FAIL POLL fuel job t0))
  /\ (forall rs t',
        Job.wait FAIL POLL fuel job t0 = (Returns rs, t') <->
        exists failed successful tf,
          Job.get_failed_results job
            (t0 ++ polls POLL job 2
             ++ [Requested (status_request job);
                 Requested (status_request job)])
          = (Returns failed, tf)
          /\ Job.get_successful_results job tf = (Returns successful, t')
          /\ rs = failed ++ successful
          /\ forallb is_Fail failed = true
          /\ forallb (fun r => negb (is_Fail r)) successful = true).
Proof.
  intros Hnf H0 H1 H2 H3 Hfuel.
  set (t4 := t0 ++ polls POLL job 2
             ++ [Requested (status_request job);
                 Requested (status_request job)]).
  assert (Hpoll : Job.poll POLL fuel job t0
                  = (Returns tt, (t0 ++ polls POLL job 2)
                                 ++ [Requested (status_request job)])).
  { replace fuel with (2 + S (fuel - 3)) by lia.
    rewrite poll_forward.
    - apply poll_done. now rewrite (is_done_observes _ _ _ H2).
    - intros [|[|k]] Hk; try lia.
      + simpl polls. rewrite app_nil_r. now rewrite (is_done_observes _ _ _ H0).
      + now rewrite (is_done_observes _ _ _ H1). }
  assert (Heq : Job.wait FAIL POLL fuel job t0
                = (failed <- Job.get_failed_results job ;;
                   successful <- Job.get_successful_results job ;;
                   ret (failed ++ successful)) t4).
  { unfold Job.wait. unfold bind at 1. rewrite Hpoll.
    unfold bind at 1. rewrite <- app_assoc. rewrite H3. rewrite Hnf.
    unfold bind at 1, ret at 1. subst t4.
    now rewrite <- !app_assoc. }
  split; [exact Heq|]. split.
  - rewrite Heq.
    assert (Hext : extends
              (failed <- Job.get_failed_results job ;;
               successful <- Job.get_successful_results job ;;
               ret (failed ++ successful))).
    { unfold Job.get_failed_results, Job.get_successful_results.
      pose proof
        (extends_get_results job "failedResults" Job.fail_callback).
      pose proof
        (extends_get_results job "successfulResults" Job.success_callback).
      trace_auto. }
    destruct (Hext t4) as [ext ->]. subst t4.
    rewrite !status_checks_app, status_checks_polls.
    change [Requested (status_request job); Requested (status_request job)]
      with ([Requested (status_request job)]
            ++ [Requested (status_request job)]).
    rewrite status_checks_app, status_checks_request. lia.
  - intros rs t'. rewrite Heq. unfold bind, ret. split.
    + intros H.
      destruct (Job.get_failed_results job t4) as [[failed| |] tf] eqn:Hf;
        try discriminate H.
      destruct (Job.get_successful_results job tf)
        as [[successful| |] ts] eqn:Hs; try discriminate H.
      injection H as <- <-. exists failed, successful, tf.
      repeat split; auto.
      * eapply get_results_forallb; [|exact Hf].
        apply fail_callback_is_Fail.
      * eapply get_results_forallb; [|exact Hs].
        apply success_callback_is_Success.
    + intros (failed & successful & tf & Hf & Hs & -> & _).
      now rewrite Hf, Hs.
Qed.

Lemma wait_open_upload_complete_witness :
  Job.wait Scenario.BULK_STATES_FAIL Scenario.POLL_SLEEP_SECONDS 3
           Scenario.completing_job []
  = (Returns [models.FailResultRecord "001" "BAD";
              models.SuccessResultRecord "002";
              models.SuccessResultRecord "003"],
     polls Scenario.POLL_SLEEP_SECONDS Scenario.completing_job 2
     ++ [Requested (status_request Scenario.completing_job);
         Requested (status_request Scenario.completing_job);
         Requested (results_request Scenario.completing_job
                                    "failedResults");
         Requested (results_request Scenario.completing_job
                                    "successfulResults")]).
Proof.
  destruct (wait_open_upload_complete
              Scenario.BULK_STATES_FAIL Scenario.POLL_SLEEP_SECONDS 3
              Scenario.completing_job []
              eq_refl eq_refl eq_refl eq_refl eq_refl (le_n 3))
    as [Heq _].
  rewrite Heq. reflexivity.
Defined.

(** C2.  A job that is found not done [n] times and then [Failed], its
    descriptor carrying [errorMessage = X] from then on: [wait()] raises
    [BulkJobFailedError(X)] after [n] rounds and three more status
    requests, and nothing else was sent: no request went to a result set
    of the job ([successfulResults], [failedResults] or any other
    sub-resource).  [Failed] is assumed to be among the failure
    states. *)
Theorem wait_failed_job FAIL POLL fuel job t0 n X :
  py_in (PStr "Failed") FAIL = true ->
  (forall k, k < n ->
     exists s, observes job (t0 ++ polls POLL job k) s
               /\ py_in s const.BULK_STATES_DONE = false) ->
  describes job (t0 ++ polls POLL job n) (PStr "Failed") (PStr X) ->
  describes job (t0 ++ polls POLL job n ++ [Requested (status_request job)])
            (PStr "Failed") (PStr X) ->
  describes job (t0 ++ polls POLL job n
                 ++ [Requested (status_request job);
                     Requested (status_request job)])
            (PStr "Failed") (PStr X) ->
  n < fuel ->
  Job.wait FAIL POLL fuel job t0
  = (Raises (BulkJobFailedError (PStr X)),
     t0 ++ polls POLL job n
     ++ [Requested (status_request job); Requested (status_request job);
         Requested (status_request job)])
  /\ Forall (fun e => e = Requested (status_request job) \/ e = Slept POLL)
            (polls POLL job n
             ++ [Requested (status_request job);
                 Requested (status_request job);
                 Requested (status_request job)])
  /\ forall uri,
       ~ In (Requested (results_request job uri))
            (polls POLL job n
             ++ [Requested (status_request job);
                 Requested (status_request job);
                 Requested (status_request job)]).
Proof.
  intros Hfail Hbefore Hn Hn1 Hn2 Hfuel.
  assert (Hev : Forall (fun e => e = Requested (status_request job)
                                 \/ e = Slept POLL)
                  (polls POLL job n
                   ++ [Requested (status_request job);
                       Requested (status_request job);
                       Requested (status_request job)])).
  { apply Forall_app. split; [apply polls_events|].
    repeat constructor; auto. }
  split; [|split; [exact Hev|]].
  - assert (Hpoll : Job.poll POLL fuel job t0
                    = (Returns tt, (t0 ++ polls POLL job n)
                                   ++ [Requested (status_request job)])).
    { replace fuel with (n + S (fuel - S n)) by lia.
      rewrite poll_forward.
      - apply poll_done.
        now rewrite (is_done_observes _ _ _ (describes_observes _ _ _ _ Hn)).
      - intros k Hk. destruct (Hbefore k Hk) as (s & Hs & Hnd).
        now rewrite (is_done_observes _ _ _ Hs), Hnd. }
    unfold Job.wait. unfold bind at 1. rewrite Hpoll.
    unfold bind at 1. rewrite <- app_assoc.
    rewrite (describes_observes _ _ _ _ Hn1). rewrite Hfail.
    destruct Hn2 as (doc & Hinfo & _ & Hmsg).
    unfold bind. rewrite <- !app_assoc. simpl app at 3.
    simpl app in Hinfo. rewrite Hinfo, Hmsg. simpl.
    now rewrite <- !app_assoc.
  - intros uri Hin. rewrite Forall_forall in Hev.
    destruct (Hev _ Hin) as [H|H]; [|discriminate H].
    injection H as H. now apply append_neq in H.
Qed.

Lemma wait_failed_job_witness :
  Job.wait Scenario.BULK_STATES_FAIL Scenario.POLL_SLEEP_SECONDS 2
           Scenario.failing_job []
  = (Raises (BulkJobFailedError (PStr "X")),
     polls Scenario.POLL_SLEEP_SECONDS Scenario.failing_job 1
     ++ [Requested (status_request Scenario.failing_job);
         Requested (status_request Scenario.failing_job);
         Requested (status_request Scenario.failing_job)]).
Proof.
  refine (proj1 (wait_failed_job
                   Scenario.BULK_STATES_FAIL Scenario.POLL_SLEEP_SECONDS 2
                   Scenario.failing_job [] 1 "X"
                   eq_refl _ _ _ _ (le_n 2))).
  - intros [|k] Hk; [|lia].
    exists (PStr "UploadComplete"). split; reflexivity.
  - eexists. repeat split; reflexivity.
  - eexists. repeat split; reflexivity.
  - eexists. repeat split; reflexivity.
Defined.

(** C3.  [wait()] returns normally only after a status check that found
    the job in one of the terminal states [JobComplete], [Failed],
    [Aborted]: the events it adds to the trace start with some number
    [n] of rounds, each a status check that found the job not done
    followed by a pause of the configured length, and then the status
    check that found it done. *)
Theorem wait_returns_after_terminal FAIL POLL fuel job t0 rs t' :
  Job.wait FAIL POLL fuel job t0 = (Returns rs, t') ->
  exists n s ext,
    (forall k, k < n ->
       Job.is_done job (t0 ++ polls POLL job k)
       = (Returns false,
          (t0 ++ polls POLL job k) ++ [Requested (status_request job)]))
    /\ observes job (t0 ++ polls POLL job n) s
    /\ py_in s ["JobComplete"; "Failed"; "Aborted"] = true
    /\ Job.is_done job (t0 ++ polls POLL job n)
       = (Returns true,
          (t0 ++ polls POLL job n) ++ [Requested (status_request job)])
    /\ t' = t0 ++ polls POLL job n
            ++ Requested (status_request job) :: ext.
Proof.
  intros H. unfold Job.wait in H. unfold bind at 1 in H.
  destruct (Job.poll POLL fuel job t0) as [[u| |] t1] eqn:Hp;
    try discriminate H.
  apply poll_inv in Hp. destruct Hp as (n & _ & Hk & Hdone & Ht1).
  destruct (is_done_inv _ _ _ _ Hdone) as (s & Hs & Hin & _).
  match type of H with
  | ?m t1 = _ => assert (Hext : extends m)
  end.
  { pose proof (extends_get_state job).
    pose proof (extends_info job).
    unfold Job.get_failed_results, Job.get_successful_results.
    pose proof
      (extends_get_results job "failedResults" Job.fail_callback).
    pose proof
      (extends_get_results job "successfulResults" Job.success_callback).
    trace_auto. }
  destruct (Hext t1) as [ext Hsnd]. rewrite H in Hsnd. simpl in Hsnd.
  exists n, s, ext. repeat split; auto.
  - now rewrite Ht1 in Hdone.
  - subst t' t1. now rewrite <- !app_assoc.
Qed.

Lemma wait_returns_after_terminal_witness :
  exists n s ext,
    observes Scenario.completing_job
      ([] ++ polls Scenario.POLL_SLEEP_SECONDS Scenario.completing_job n) s
    /\ py_in s ["JobComplete"; "Failed"; "Aborted"] = true
    /\ polls Scenario.POLL_SLEEP_SECONDS Scenario.completing_job 2
       ++ [Requested (status_request Scenario.completing_job);
           Requested (status_request Scenario.completing_job);
           Requested (results_request Scenario.completing_job
                                      "failedResults");
           Requested (results_request Scenario.completing_job
                                      "successfulResults")]
       = [] ++ polls Scenario.POLL_SLEEP_SECONDS Scenario.completing_job n
         ++ Requested (status_request Scenario.completing_job) :: ext.
Proof.
  destruct (wait_returns_after_terminal
              Scenario.BULK_STATES_FAIL Scenario.POLL_SLEEP_SECONDS 3
              Scenario.completing_job []
              [models.FailResultRecord "001" "BAD";
               models.SuccessResultRecord "002";
               models.SuccessResultRecord "003"]
              _ eq_refl)
    as (n & s & ext & _ & Hs & Hin & _ & Ht).
  exists n, s, ext. repeat split; assumption.
Defined.

(** C4.  Each of [insert], [update], [upsert] and [delete] returns
    exactly when job creation returns a job, [upload] of the entries to
    that job then returns, and [wait()] on that job then returns; the
    value is the one [wait()] returned, a list of result records. *)
Theorem operations_create_upload_wait FAIL POLL get_csv fuel
    (self : Bulk.t) object_name entries ids external t rs t' :
  (Bulk.insert FAIL POLL get_csv fuel self object_name entries t
   = (Returns rs, t')
   <-> create_upload_wait FAIL POLL get_csv fuel self "insert" object_name
         entries PNone t rs t')
  /\ (Bulk.update FAIL POLL get_csv fuel self object_name entries t
      = (Returns rs, t')
      <-> create_upload_wait FAIL POLL get_csv fuel self "update"
            object_name entries PNone t rs t')
  /\ (Bulk.upsert FAIL POLL get_csv fuel self object_name entries external t
      = (Returns rs, t')
      <-> create_upload_wait FAIL POLL get_csv fuel self "upsert"
            object_name entries
            (PStr (match external with Some name => name | None => "Id" end))
            t rs t')
  /\ (Bulk.delete FAIL POLL get_csv fuel self object_name ids t
      = (Returns rs, t')
      <-> create_upload_wait FAIL POLL get_csv fuel self "delete"
            object_name (map (fun id => PDict [("Id", PStr id)]) ids) PNone
            t rs t').
Proof.
  assert (Hexec : forall operation entries' external_id,
    Bulk._execute_operation FAIL POLL get_csv fuel self operation
      object_name entries' external_id t = (Returns rs, t')
    <-> exists job t1 t2,
          Bulk._create_job self operation object_name external_id t
          = (Returns job, t1)
          /\ Job.upload get_csv job entries' t1 = (Returns true, t2)
          /\ Job.wait FAIL POLL fuel job t2 = (Returns rs, t')).
  { intros operation entries' external_id.
    unfold Bulk._execute_operation. unfold bind at 1 2. split.
    - intros H.
      destruct (Bulk._create_job self operation object_name external_id t)
        as [[job| |] t1]; try discriminate H.
      destruct (Job.upload get_csv job entries' t1) as [[b| |] t2] eqn:Hu;
        try discriminate H.
      exists job, t1, t2. repeat split; auto.
      assert (b = true); [|now subst b].
      unfold Job.upload, bind, ret in Hu.
      destruct (try_except _ _ _ t1) as [[u| |] t3]; try discriminate Hu.
      destruct (Job._set_state job _ t3) as [[v| |] t4]; try discriminate Hu.
      now injection Hu as <- _.
    - intros (job & t1 & t2 & Hc & Hu & Hw). now rewrite Hc, Hu. }
  unfold create_upload_wait.
  repeat split; try apply Hexec; apply (proj2 (Hexec _ _ _)).
Qed.

Lemma operations_create_upload_wait_witness :
  Bulk.insert Scenario.BULK_STATES_FAIL Scenario.POLL_SLEEP_SECONDS
    Scenario.get_csv_string 3 (Bulk.init Scenario.completing) "Account"
    [PDict [("Name", PStr "Acme")]] []
  = (Returns [models.FailResultRecord "001" "BAD";
              models.SuccessResultRecord "002";
              models.SuccessResultRecord "003"],
     snd (Job.wait Scenario.BULK_STATES_FAIL Scenario.POLL_SLEEP_SECONDS 3
            Scenario.completing_job
            (snd (Job.upload Scenario.get_csv_string Scenario.completing_job
                    [PDict [("Name", PStr "Acme")]]
                    [Requested (create_request (Bulk.init Scenario.completing)
                                  "insert" "Account" PNone)])))).
Proof.
  apply (proj1 (operations_create_upload_wait
                  Scenario.BULK_STATES_FAIL Scenario.POLL_SLEEP_SECONDS
                  Scenario.get_csv_string 3 (Bulk.init Scenario.completing)
                  "Account" [PDict [("Name", PStr "Acme")]] [] None [] _ _)).
  exists Scenario.completing_job. eexists. eexists.
  repeat split; reflexivity.
Defined.

(** C5.  [upload(entries)], for entries the preparer encodes: when the
    answer to the PUT of the batch has a body that is not JSON (or the
    connection itself raises the JSON parse error), the error is
    swallowed and the upload goes on with the state patch to
    [UploadComplete], returning [True] once the patch is answered; any
    other exception of the PUT, and any exception of the patch,
    reaches the caller. *)
Theorem upload_swallows_parse_error get_csv job entries payload t :
  get_csv entries = inr payload ->
  ((base.connection (Job.rest job) t (batches_request job payload)
    = inl JSONDecodeError
    \/ exists resp,
         base.connection (Job.rest job) t (batches_request job payload)
         = inr resp) ->
   Job.upload get_csv job entries t
   = (Job._set_state job "UploadComplete" ;; ret true)
       (t ++ [Requested (batches_request job payload)])
   /\ forall answer doc,
        base.connection (Job.rest job)
          (t ++ [Requested (batches_request job payload)])
          (state_request job "UploadComplete") = inr answer ->
        json_body answer = Some doc ->
        Job.upload get_csv job entries t
        = (Returns true,
           t ++ [Requested (batches_request job payload);
                 Requested (state_request job "UploadComplete")]))
  /\ (forall e,
        base.connection (Job.rest job) t (batches_request job payload)
        = inl e ->
        e <> JSONDecodeError ->
        Job.upload get_csv job entries t
        = (Raises e, t ++ [Requested (batches_request job payload)]))
  /\ (forall e,
        (base.connection (Job.rest job) t (batches_request job payload)
         = inl JSONDecodeError
         \/ exists resp,
              base.connection (Job.rest job) t (batches_request job payload)
              = inr resp) ->
        base.connection (Job.rest job)
          (t ++ [Requested (batches_request job payload)])
          (state_request job "UploadComplete") = inl e ->
        Job.upload get_csv job entries t
        = (Raises e,
           t ++ [Requested (batches_request job payload);
                 Requested (state_request job "UploadComplete")])).
Proof.
  intros Hpayload.
  assert (Hswallow :
    (base.connection (Job.rest job) t (batches_request job payload)
     = inl JSONDecodeError
     \/ exists resp,
          base.connection (Job.rest job) t (batches_request job payload)
          = inr resp) ->
    Job.upload get_csv job entries t
    = (Job._set_state job "UploadComplete" ;; ret true)
        (t ++ [Requested (batches_request job payload)])).
  { intros H. unfold Job.upload. unfold bind at 1.
    unfold try_except, Job._prepare_data. unfold bind at 1.
    rewrite Hpayload. unfold lift, ret at 1. unfold bind at 1.
    unfold base._put, base._request. unfold bind at 1.
    unfold connection_request. fold (batches_request job payload).
    destruct H as [H|[resp H]]; rewrite H; [reflexivity|].
    destruct (json_body resp); reflexivity. }
  split; [|split].
  - intros H. split; [now apply Hswallow|].
    intros answer doc Ha Hdoc. rewrite (Hswallow H).
    unfold bind. rewrite set_state_run, Ha, Hdoc.
    unfold ret. now rewrite <- app_assoc.
  - intros e He Hne. unfold Job.upload. unfold bind at 1.
    unfold try_except, Job._prepare_data. unfold bind at 1.
    rewrite Hpayload. unfold lift, ret at 1. unfold bind at 1.
    unfold base._put, base._request. unfold bind at 1.
    unfold connection_request. fold (batches_request job payload).
    rewrite He. destruct e; try reflexivity. now contradiction Hne.
  - intros e H He. rewrite (Hswallow H).
    unfold bind. rewrite set_state_run, He.
    now rewrite <- app_assoc.
Qed.

Lemma upload_swallows_parse_error_witness :
  Job.upload Scenario.get_csv_string Scenario.completing_job
             [PDict [("Name", PStr "Acme")]] []
  = (Returns true,
     [Requested (batches_request Scenario.completing_job
                   ("Name" ++ Scenario.NL ++ "Acme" ++ Scenario.NL)%string);
      Requested (state_request Scenario.completing_job "UploadComplete")]).
Proof.
  destruct (upload_swallows_parse_error
              Scenario.get_csv_string Scenario.completing_job
              [PDict [("Name", PStr "Acme")]]
              ("Name" ++ Scenario.NL ++ "Acme" ++ Scenario.NL)%string
              [] eq_refl) as [Hswallow _].
  destruct Hswallow as [_ Hreturns].
  - right. eexists. reflexivity.
  - eapply Hreturns; reflexivity.
Defined.

(** C6.  [delete(object_name, ids)] runs the common operation on the
    records [{'Id': id}], one per id and in the order of the ids: once
    the job is created, it is [upload] of these records followed by
    [wait()], and the request sent right after job creation is the PUT
    of their encoding.  In particular the payload of [delete(["a","b"])]
    is the encoding of [[{"Id":"a"},{"Id":"b"}]]. *)
Theorem delete_uploads_id_records FAIL POLL get_csv fuel (self : Bulk.t)
    object_name t job t1 :
  Bulk._create_job self "delete" object_name PNone t = (Returns job, t1) ->
  (forall ids payload,
     get_csv (map (fun id => PDict [("Id", PStr id)]) ids) = inr payload ->
     Bulk.delete FAIL POLL get_csv fuel self object_name ids t
     = (Job.upload get_csv job (map (fun id => PDict [("Id", PStr id)]) ids) ;;
        Job.wait FAIL POLL fuel job) t1
     /\ exists ext,
          snd (Bulk.delete FAIL POLL get_csv fuel self object_name ids t)
          = t1 ++ Requested (batches_request job payload) :: ext)
  /\ (forall payload,
        get_csv [PDict [("Id", PStr "a")]; PDict [("Id", PStr "b")]]
        = inr payload ->
        exists ext,
          snd (Bulk.delete FAIL POLL get_csv fuel self object_name
                           ["a"; "b"] t)
          = t1 ++ Requested (batches_request job payload) :: ext).
Proof.
  intros Hc.
  assert (Hall : forall ids payload,
    get_csv (map (fun id => PDict [("Id", PStr id)]) ids) = inr payload ->
    Bulk.delete FAIL POLL get_csv fuel self object_name ids t
    = (Job.upload get_csv job (map (fun id => PDict [("Id", PStr id)]) ids) ;;
       Job.wait FAIL POLL fuel job) t1
    /\ exists ext,
         snd (Bulk.delete FAIL POLL get_csv fuel self object_name ids t)
         = t1 ++ Requested (batches_request job payload) :: ext).
  { intros ids payload Hp. unfold Bulk.delete.
    now apply execute_operation_requests. }
  split; [exact Hall|].
  intros payload Hp. now apply (Hall ["a"; "b"] payload).
Qed.

Lemma delete_uploads_id_records_witness :
  exists ext,
    snd (Bulk.delete Scenario.BULK_STATES_FAIL Scenario.POLL_SLEEP_SECONDS
           Scenario.get_csv_string 3 (Bulk.init Scenario.completing)
           "Account" ["a"; "b"] [])
    = [Requested (create_request (Bulk.init Scenario.completing)
                                 "delete" "Account" PNone)]
      ++ Requested (batches_request Scenario.completing_job
                      ("Id" ++ Scenario.NL ++ "a" ++ Scenario.NL
                       ++ "b" ++ Scenario.NL)%string)
         :: ext.
Proof.
  apply (proj2 (delete_uploads_id_records
                  Scenario.BULK_STATES_FAIL Scenario.POLL_SLEEP_SECONDS
                  Scenario.get_csv_string 3 (Bulk.init Scenario.completing)
                  "Account" [] Scenario.completing_job
                  [Requested (create_request (Bulk.init Scenario.completing)
                                             "delete" "Account" PNone)]
                  eq_refl)).
  reflexivity.
Defined.

(** C7.  Job creation by the Bulk service sends one request, a POST to
    [jobs/ingest] whose JSON body fixes [columnDelimiter = COMMA],
    [contentType = CSV], [lineEnding = LF] and carries the object name,
    the operation and [externalIdFieldName]; it returns a job exactly
    when the answer is a JSON document whose [id] is a string, and that
    job is the one of this id, at [jobs/ingest/{id}].  The creation
    request is the first one of every operation, with
    [externalIdFieldName] null for insert, update and delete, and for
    upsert the given name, ["Id"] when none is given. *)
Theorem create_job_request FAIL POLL get_csv fuel (connection : Connection)
    operation object_name external_id entries ids t :
  create_request (Bulk.init connection) operation object_name external_id
  = {| method := POST;
       url := "jobs/ingest";
       json := Some (PDict [("columnDelimiter", PStr "COMMA");
                            ("contentType", PStr "CSV");
                            ("lineEnding", PStr "LF");
                            ("object", PStr object_name);
                            ("operation", PStr operation);
                            ("externalIdFieldName", external_id)]);
       data := None;
       headers := [] |}
  /\ snd (Bulk._create_job (Bulk.init connection) operation object_name
                           external_id t)
     = t ++ [Requested (create_request (Bulk.init connection) operation
                                       object_name external_id)]
  /\ (forall job t',
        Bulk._create_job (Bulk.init connection) operation object_name
                         external_id t = (Returns job, t')
        <-> exists resp doc id,
              connection t (create_request (Bulk.init connection) operation
                                           object_name external_id)
              = inr resp
              /\ json_body resp = Some doc
              /\ py_get doc "id" = inr (PStr id)
              /\ job = {| Job.rest :=
                            {| base.connection := connection;
                               base.base_uri :=
                                 ("jobs/ingest/" ++ id)%string |};
                          Job.job_id := id |}
              /\ t' = t ++ [Requested
                              (create_request (Bulk.init connection)
                                 operation object_name external_id)])
  /\ (exists ext,
        snd (Bulk.insert FAIL POLL get_csv fuel (Bulk.init connection)
                         object_name entries t)
        = t ++ Requested (create_request (Bulk.init connection) "insert"
                                         object_name PNone) :: ext)
  /\ (exists ext,
        snd (Bulk.update FAIL POLL get_csv fuel (Bulk.init connection)
                         object_name entries t)
        = t ++ Requested (create_request (Bulk.init connection) "update"
                                         object_name PNone) :: ext)
  /\ (exists ext,
        snd (Bulk.delete FAIL POLL get_csv fuel (Bulk.init connection)
                         object_name ids t)
        = t ++ Requested (create_request (Bulk.init connection) "delete"
                                         object_name PNone) :: ext)
  /\ (exists ext,
        snd (Bulk.upsert FAIL POLL get_csv fuel (Bulk.init connection)
                         object_name entries None t)
        = t ++ Requested (create_request (Bulk.init connection) "upsert"
                                         object_name (PStr "Id")) :: ext)
  /\ (forall name, exists ext,
        snd (Bulk.upsert FAIL POLL get_csv fuel (Bulk.init connection)
                         object_name entries (Some name) t)
        = t ++ Requested (create_request (Bulk.init connection) "upsert"
                                         object_name (PStr name)) :: ext).
Proof.
  split; [reflexivity|]. split; [now rewrite create_job_run|].
  split.
  - intros job t'. rewrite create_job_run.
    change (base.connection (Bulk.init connection)) with connection.
    split.
    + intros H.
      destruct (connection t _) as [e|resp]; [discriminate H|].
      destruct (json_body resp) as [doc|] eqn:Hdoc; [|discriminate H].
      destruct (py_get doc "id") as [e|[| | |id| |]] eqn:Hid;
        try discriminate H.
      simpl in H. injection H as <- <-. exists resp, doc, id.
      repeat split; assumption.
    + intros (resp & doc & id & Hc & Hdoc & Hid & -> & ->).
      now rewrite Hc, Hdoc, Hid.
  - repeat split; try intros name;
      apply execute_operation_requests.
Qed.

Lemma create_job_request_witness :
  Bulk._create_job (Bulk.init Scenario.completing) "upsert" "Account"
                   (PStr "Id") []
  = (Returns Scenario.completing_job,
     [] ++ [Requested (create_request (Bulk.init Scenario.completing)
                                      "upsert" "Account" (PStr "Id"))]).
Proof.
  destruct (create_job_request
              Scenario.BULK_STATES_FAIL Scenario.POLL_SLEEP_SECONDS
              Scenario.get_csv_string 3 Scenario.completing
              "upsert" "Account" (PStr "Id") [] [] [])
    as (_ & _ & Hjob & _).
  apply Hjob. eexists. eexists. exists Scenario.the_id.
  repeat split; reflexivity.
Defined.

(** C8.  [get_successful_results()] and [get_failed_results()] send one
    GET to their result set and, when its CSV text parses into rows,
    drop the first row and turn every other row into a record: a
    success from column 0, a failure from columns 0 and 1 (for rows that
    have these columns).  On the text of the two lines
    [sf__Id,sf__Error] and [001,BAD], [get_failed_results()] returns the
    one failure record of id ["001"] and message ["BAD"]. *)
Theorem result_sets_skip_header_and_map job t :
  (forall resp rows,
     base.connection (Job.rest job) t
       (results_request job "successfulResults") = inr resp ->
     csv_rows (text resp) = inr rows ->
     Forall (fun x => 1 <= List.length x) (tl rows) ->
     Job.get_successful_results job t
     = (Returns (map success_of_row (tl rows)),
        t ++ [Requested (results_request job "successfulResults")]))
  /\ (forall resp rows,
        base.connection (Job.rest job) t
          (results_request job "failedResults") = inr resp ->
        csv_rows (text resp) = inr rows ->
        Forall (fun x => 2 <= List.length x) (tl rows) ->
        Job.get_failed_results job t
        = (Returns (map fail_of_row (tl rows)),
           t ++ [Requested (results_request job "failedResults")]))
  /\ (forall resp,
        base.connection (Job.rest job) t
          (results_request job "failedResults") = inr resp ->
        text resp
        = ("sf__Id,sf__Error" ++ String csv.LF
             ("001,BAD" ++ String csv.LF ""))%string ->
        Job.get_failed_results job t
        = (Returns [models.FailResultRecord "001" "BAD"],
           t ++ [Requested (results_request job "failedResults")])).
Proof.
  assert (Hfailed : forall resp rows,
    base.connection (Job.rest job) t
      (results_request job "failedResults") = inr resp ->
    csv_rows (text resp) = inr rows ->
    Forall (fun x => 2 <= List.length x) (tl rows) ->
    Job.get_failed_results job t
    = (Returns (map fail_of_row (tl rows)),
       t ++ [Requested (results_request job "failedResults")])).
  { intros resp rows Hc Hrows Hlong. unfold Job.get_failed_results.
    rewrite (get_results_rows _ _ _ _ _ _ Hc Hrows).
    now rewrite map_fail_callback. }
  split; [|split; [exact Hfailed|]].
  - intros resp rows Hc Hrows Hlong. unfold Job.get_successful_results.
    rewrite (get_results_rows _ _ _ _ _ _ Hc Hrows).
    now rewrite map_success_callback.
  - intros resp Hc Htext.
    apply (Hfailed resp [["sf__Id"; "sf__Error"]; ["001"; "BAD"]] Hc).
    + rewrite Htext. reflexivity.
    + simpl. repeat constructor.
Qed.

Lemma result_sets_skip_header_and_map_witness :
  Job.get_failed_results Scenario.completing_job []
  = (Returns [models.FailResultRecord "001" "BAD"],
     [] ++ [Requested (results_request Scenario.completing_job
                                       "failedResults")])
  /\ Job.get_successful_results Scenario.completing_job []
     = (Returns (map success_of_row [["002"; "true"]; ["003"; "true"]]),
        [] ++ [Requested (results_request Scenario.completing_job
                                          "successfulResults")]).
Proof.
  destruct (result_sets_skip_header_and_map Scenario.completing_job [])
    as (Hs & _ & Hf).
  split.
  - eapply Hf; reflexivity.
  - apply (Hs {| text := Scenario.successful_csv; json_body := None |}
              [["sf__Id"; "sf__Created"]; ["002"; "true"]; ["003"; "true"]]);
      try reflexivity.
    simpl. repeat constructor.
Defined.

Lemma assoc_None k (d : list (string * pyval)) :
  assoc k d = None <-> ~ In k (map fst d).
Proof.
  induction d as [|[k' v] d IH]; simpl.
  - tauto.
  - destruct (String.eqb_spec k k') as [->|Hne].
    + split; [discriminate | intros H; exfalso; apply H; now left].
    + rewrite IH. split.
      * intros H [Heq|Hin]; [now apply Hne | now apply H].
      * intros H Hin. apply H. now right.
Qed.

Lemma repeated_keyword_NoDup (kwargs : list (string * pyval)) :
  NoDup (map fst kwargs) -> repeated_keyword kwargs = false.
Proof.
  induction kwargs as [|[k v] kwargs IH]; intros H; [reflexivity|].
  simpl in H. inversion H as [|? ? Hk Hrest]; subst. simpl.
  apply assoc_None in Hk. rewrite Hk. now apply IH.
Qed.

Lemma NoDup_repeated_keyword (kwargs : list (string * pyval)) :
  repeated_keyword kwargs = false -> NoDup (map fst kwargs).
Proof.
  induction kwargs as [|[k v] kwargs IH]; intros H; simpl.
  - constructor.
  - simpl in H. destruct (assoc k kwargs) eqn:Hk; [discriminate H|].
    constructor; [now apply assoc_None | now apply IH].
Qed.

(** C9, as amended.  [Bulk.select] called with keyword arguments only,
    no keyword given twice and none named [self], and
    [Job.get_unprocessed_records] called without argument, raise
    [NotImplementedError].  Any other call does not bind and raises
    [TypeError]: [select] with a positional argument, a keyword [self]
    or a keyword given twice, [get_unprocessed_records] with any
    argument.  In every case
    the trace is left as it was: no request is made. *)
Theorem select_and_unprocessed_not_implemented (self : Bulk.t)
    (job : Job.t) (args : list pyval) (kwargs : list (string * pyval))
    (t : Trace) :
  (args = [] ->
   NoDup (map fst kwargs) ->
   ~ In "self" (map fst kwargs) ->
   Bulk.select self args kwargs t = (Raises NotImplementedError, t))
  /\ (args <> [] \/ In "self" (map fst kwargs)
      \/ ~ NoDup (map fst kwargs) ->
      Bulk.select self args kwargs t = (Raises TypeError, t))
  /\ Job.get_unprocessed_records job [] [] t
     = (Raises NotImplementedError, t)
  /\ (args <> [] \/ kwargs <> [] ->
      Job.get_unprocessed_records job args kwargs t
      = (Raises TypeError, t))
  /\ snd (Bulk.select self args kwargs t) = t
  /\ snd (Job.get_unprocessed_records job args kwargs t) = t.
Proof.
  repeat split.
  - intros -> Hnd Hself. unfold Bulk.select, binds_self_kwargs.
    rewrite (repeated_keyword_NoDup kwargs Hnd).
    apply assoc_None in Hself. now rewrite Hself.
  - intros [Hargs|[Hself|Hdup]]; unfold Bulk.select, binds_self_kwargs.
    + destruct args; [now contradiction Hargs | reflexivity].
    + destruct args; [|reflexivity].
      destruct (assoc "self" kwargs) eqn:Ha.
      * now rewrite andb_false_r.
      * apply assoc_None in Ha. now contradiction Ha.
    + destruct args; [|reflexivity].
      destruct (repeated_keyword kwargs) eqn:Hr; [reflexivity|].
      apply NoDup_repeated_keyword in Hr. now contradiction Hdup.
  - intros [Hargs|Hkw]; unfold Job.get_unprocessed_records, binds_self.
    + destruct args; [now contradiction Hargs | reflexivity].
    + destruct args; [|reflexivity].
      destruct kwargs; [now contradiction Hkw | reflexivity].
  - unfold Bulk.select. now destruct (binds_self_kwargs args kwargs).
  - unfold Job.get_unprocessed_records.
    now destruct (binds_self args kwargs).
Qed.

Lemma select_and_unprocessed_not_implemented_witness :
  Bulk.select (Bulk.init Scenario.completing) []
    [("object_name", PStr "Account"); ("limit", PInt 10)] []
  = (Raises NotImplementedError, []).
Proof.
  apply (proj1 (select_and_unprocessed_not_implemented
                  (Bulk.init Scenario.completing) Scenario.completing_job
                  [] [("object_name", PStr "Account"); ("limit", PInt 10)]
                  [])).
  - reflexivity.
  - simpl. repeat constructor; simpl; intuition discriminate.
  - simpl. intuition discriminate.
Defined.

(** The claim as first worded, "for every combination of arguments",
    fails: a keyword named [self] or a positional argument makes
    [select] raise [TypeError], and so does any argument of
    [get_unprocessed_records]. *)
Lemma select_rejects_some_arguments :
  Bulk.select (Bulk.init Scenario.completing) [] [("self", PInt 1)] []
  <> (Raises NotImplementedError, [])
  /\ Bulk.select (Bulk.init Scenario.completing) [] [("self", PInt 1)] []
     = (Raises TypeError, [])
  /\ Bulk.select (Bulk.init Scenario.completing) [PStr "Account"] [] []
     = (Raises TypeError, [])
  /\ Job.get_unprocessed_records Scenario.completing_job [PInt 1] [] []
     = (Raises TypeError, []).
Proof.
  repeat split. discriminate.
Qed.

(** C10.  The two calls are partial: when the CSV text parses but one of
    its rows after the first has no column, [get_successful_results()]
    raises [IndexError]; when one has fewer than two columns,
    [get_failed_results()] raises [IndexError].  A blank line after the
    header is such a row for the first, a failure row with the id alone
    for the second. *)
Theorem short_rows_raise_IndexError job t :
  (forall resp rows,
     base.connection (Job.rest job) t
       (results_request job "successfulResults") = inr resp ->
     csv_rows (text resp) = inr rows ->
     Exists (fun x => List.length x < 1) (tl rows) ->
     Job.get_successful_results job t
     = (Raises IndexError,
        t ++ [Requested (results_request job "successfulResults")]))
  /\ (forall resp rows,
        base.connection (Job.rest job) t
          (results_request job "failedResults") = inr resp ->
        csv_rows (text resp) = inr rows ->
        Exists (fun x => List.length x < 2) (tl rows) ->
        Job.get_failed_results job t
        = (Raises IndexError,
           t ++ [Requested (results_request job "failedResults")]))
  /\ (forall resp,
        base.connection (Job.rest job) t
          (results_request job "successfulResults") = inr resp ->
        text resp
        = ("sf__Id,sf__Created" ++ String csv.LF (String csv.LF ""))%string ->
        Job.get_successful_results job t
        = (Raises IndexError,
           t ++ [Requested (results_request job "successfulResults")]))
  /\ (forall resp,
        base.connection (Job.rest job) t
          (results_request job "failedResults") = inr resp ->
        text resp
        = ("sf__Id,sf__Error" ++ String csv.LF
             ("001" ++ String csv.LF ""))%string ->
        Job.get_failed_results job t
        = (Raises IndexError,
           t ++ [Requested (results_request job "failedResults")])).
Proof.
  assert (Hs : forall resp rows,
    base.connection (Job.rest job) t
      (results_request job "successfulResults") = inr resp ->
    csv_rows (text resp) = inr rows ->
    Exists (fun x => List.length x < 1) (tl rows) ->
    Job.get_successful_results job t
    = (Raises IndexError,
       t ++ [Requested (results_request job "successfulResults")])).
  { intros resp rows Hc Hrows Hshort. unfold Job.get_successful_results.
    rewrite (get_results_rows _ _ _ _ _ _ Hc Hrows).
    now rewrite map_success_callback_short. }
  assert (Hf : forall resp rows,
    base.connection (Job.rest job) t
      (results_request job "failedResults") = inr resp ->
    csv_rows (text resp) = inr rows ->
    Exists (fun x => List.length x < 2) (tl rows) ->
    Job.get_failed_results job t
    = (Raises IndexError,
       t ++ [Requested (results_request job "failedResults")])).
  { intros resp rows Hc Hrows Hshort. unfold Job.get_failed_results.
    rewrite (get_results_rows _ _ _ _ _ _ Hc Hrows).
    now rewrite map_fail_callback_short. }
  repeat split; [exact Hs | exact Hf | |].
  - intros resp Hc Htext.
    apply (Hs resp [["sf__Id"; "sf__Created"]; []] Hc).
    + rewrite Htext. reflexivity.
    + simpl. constructor. simpl. lia.
  - intros resp Hc Htext.
    apply (Hf resp [["sf__Id"; "sf__Error"]; ["001"]] Hc).
    + rewrite Htext. reflexivity.
    + simpl. constructor. simpl. lia.
Qed.

Lemma short_rows_raise_IndexError_witness :
  Job.get_successful_results Scenario.malformed_job []
  = (Raises IndexError,
     [] ++ [Requested (results_request Scenario.malformed_job
                                       "successfulResults")])
  /\ Job.get_failed_results Scenario.malformed_job []
     = (Raises IndexError,
        [] ++ [Requested (results_request Scenario.malformed_job
                                          "failedResults")]).
Proof.
  destruct (short_rows_raise_IndexError Scenario.malformed_job [])
    as (_ & _ & Hs & Hf).
  split; [eapply Hs | eapply Hf]; reflexivity.
Defined.

(** * Further properties of the client *)

(** ** Failures of job creation and of the encoding *)

(** Job creation sends its one request and raises: what the connection
    raises; [JSONDecodeError] for an answer that is not JSON;
    [AttributeError] for a JSON answer that is not an object; [TypeError]
    for an object whose [id] is missing or not a string.  None of these
    is swallowed, and an operation whose job creation raises stops
    there: nothing is uploaded and no status is asked. *)
Theorem create_job_failures FAIL POLL get_csv fuel (self : Bulk.t)
    operation object_name external_id entries t :
  (forall e,
     base.connection self t
       (create_request self operation object_name external_id) = inl e ->
     Bulk._create_job self operation object_name external_id t
     = (Raises e,
        t ++ [Requested (create_request self operation object_name
                                        external_id)]))
  /\ (forall resp,
        base.connection self t
          (create_request self operation object_name external_id)
        = inr resp ->
        (json_body resp = None ->
         Bulk._create_job self operation object_name external_id t
         = (Raises JSONDecodeError,
            t ++ [Requested (create_request self operation object_name
                                            external_id)]))
        /\ (forall doc,
              json_body resp = Some doc ->
              (forall d, doc <> PDict d) ->
              Bulk._create_job self operation object_name external_id t
              = (Raises AttributeError,
                 t ++ [Requested (create_request self operation object_name
                                                 external_id)]))
        /\ (forall d,
              json_body resp = Some (PDict d) ->
              (forall id, assoc "id" d <> Some (PStr id)) ->
              Bulk._create_job self operation object_name external_id t
              = (Raises TypeError,
                 t ++ [Requested (create_request self operation object_name
                                                 external_id)])))
  /\ (forall e t',
        Bulk._create_job self operation object_name external_id t
        = (Raises e, t') ->
        Bulk._execute_operation FAIL POLL get_csv fuel self operation
          object_name entries external_id t
        = (Raises e,
           t ++ [Requested (create_request self operation object_name
                                           external_id)])).
Proof.
  split; [|split].
  - intros e He. now rewrite create_job_run, He.
  - intros resp Hc. split; [|split].
    + intros Hb. now rewrite create_job_run, Hc, Hb.
    + intros doc Hb Hnd. rewrite create_job_run, Hc, Hb.
      destruct doc; try reflexivity. now contradiction (Hnd d).
    + intros d Hb Hid. rewrite create_job_run, Hc, Hb. simpl.
      destruct (assoc "id" d) as [[| | |id| |]|]; try reflexivity.
      now contradiction (Hid id).
  - intros e t' H. unfold Bulk._execute_operation, bind. rewrite H.
    rewrite create_job_run in H. now injection H as _ <-.
Qed.

Lemma create_job_failures_witness :
  Bulk.insert Scenario.BULK_STATES_FAIL Scenario.POLL_SLEEP_SECONDS
    Scenario.get_csv_string 3 (Bulk.init Faults.no_id) "Account"
    [PDict [("Name", PStr "Acme")]] []
  = (Raises TypeError,
     [] ++ [Requested (create_request (Bulk.init Faults.no_id)
                                      "insert" "Account" PNone)]).
Proof.
  destruct (create_job_failures
              Scenario.BULK_STATES_FAIL Scenario.POLL_SLEEP_SECONDS
              Scenario.get_csv_string 3 (Bulk.init Faults.no_id)
              "insert" "Account" PNone [PDict [("Name", PStr "Acme")]] [])
    as (_ & Hresp & Hop).
  eapply Hop.
  destruct (Hresp {| text := "";
                     json_body := Some (PDict [("state", PStr "Open")]) |}
                  eq_refl) as (_ & _ & Hid).
  apply (Hid [("state", PStr "Open")] eq_refl).
  intros id. discriminate.
Defined.

(** An exception of the CSV preparer other than [JSONDecodeError] leaves
    [upload] before anything is sent; inside an operation the job has
    then been created and nothing more is sent.  [JSONDecodeError]
    raised by the preparer is caught like the one of the PUT: no batch
    is sent, and the state patch to [UploadComplete] still is. *)
Theorem encoding_failure get_csv job entries t e :
  get_csv entries = inl e ->
  (is_JSONDecodeError e = false ->
   Job.upload get_csv job entries t = (Raises e, t)
   /\ forall FAIL POLL fuel (self : Bulk.t) operation object_name
             external_id t0,
        Bulk._create_job self operation object_name external_id t0
        = (Returns job, t) ->
        Bulk._execute_operation FAIL POLL get_csv fuel self operation
          object_name entries external_id t0
        = (Raises e, t))
  /\ (is_JSONDecodeError e = true ->
      Job.upload get_csv job entries t
      = (Job._set_state job "UploadComplete" ;; ret true) t
      /\ snd (Job.upload get_csv job entries t)
         = t ++ [Requested (state_request job "UploadComplete")]).
Proof.
  intros He.
  assert (Hbody : forall k : unit -> M bool,
    (try_except
       (data <- Job._prepare_data get_csv entries ;;
        base._put (Job.rest job) "batches" data
                  [("Content-Type", "text/csv")] ;;
        ret tt)
       is_JSONDecodeError (ret tt) ;; k tt) t
    = if is_JSONDecodeError e then k tt t else (Raises e, t)).
  { intros k. unfold bind at 1. unfold try_except, Job._prepare_data.
    unfold bind at 1. rewrite He. unfold lift, raise.
    now destruct (is_JSONDecodeError e). }
  split.
  - intros Hne.
    assert (Hu : Job.upload get_csv job entries t = (Raises e, t)).
    { unfold Job.upload.
      rewrite (Hbody (fun _ =>
                 Job._set_state job const.BULK_STATE_UPLOAD_COMPLETE ;;
                 ret true)).
      now rewrite Hne. }
    split; [exact Hu|].
    intros FAIL POLL fuel self operation object_name external_id t0 Hc.
    unfold Bulk._execute_operation. unfold bind at 1. rewrite Hc.
    unfold bind. now rewrite Hu.
  - intros Hje.
    assert (Hu : Job.upload get_csv job entries t
                 = (Job._set_state job "UploadComplete" ;; ret true) t).
    { unfold Job.upload.
      rewrite (Hbody (fun _ =>
                 Job._set_state job const.BULK_STATE_UPLOAD_COMPLETE ;;
                 ret true)).
      now rewrite Hje. }
    split; [exact Hu|]. rewrite Hu. unfold bind.
    rewrite set_state_run.
    destruct (base.connection (Job.rest job) t _) as [e'|resp];
      [reflexivity|].
    destruct (json_body resp); reflexivity.
Qed.

Lemma encoding_failure_witness :
  Bulk.insert Scenario.BULK_STATES_FAIL Scenario.POLL_SLEEP_SECONDS
    Scenario.get_csv_string 3 (Bulk.init Scenario.completing) "Account"
    [] []
  = (Raises (EncodingError "nothing to encode"),
     [Requested (create_request (Bulk.init Scenario.completing)
                                "insert" "Account" PNone)]).
Proof.
  destruct (encoding_failure
              Scenario.get_csv_string Scenario.completing_job [] 
              [Requested (create_request (Bulk.init Scenario.completing)
                                         "insert" "Account" PNone)]
              (EncodingError "nothing to encode") eq_refl)
    as [Hother _].
  destruct (Hother eq_refl) as [_ Hop].
  apply (Hop Scenario.BULK_STATES_FAIL Scenario.POLL_SLEEP_SECONDS 3
             (Bulk.init Scenario.completing) "insert" "Account" PNone []).
  reflexivity.
Defined.

(** [upload] never returns anything but [True], and when it returns the
    last thing it did was the state patch to [UploadComplete], answered
    with a JSON document. *)
Theorem upload_returns_after_patch get_csv job entries t b t' :
  Job.upload get_csv job entries t = (Returns b, t') ->
  b = true
  /\ exists t1 answer doc,
       t' = t1 ++ [Requested (state_request job "UploadComplete")]
       /\ base.connection (Job.rest job) t1
            (state_request job "UploadComplete") = inr answer
       /\ json_body answer = Some doc
       /\ exists ext, t1 = t ++ ext.
Proof.
  intros H. unfold Job.upload in H. unfold bind at 1 in H.
  match type of H with
  | context [try_except ?body ?E ?h t] =>
      assert (Hext : extends (try_except body E h));
      [| destruct (Hext t) as [ext Hsnd];
         destruct (try_except body E h t) as [[u| |] t1];
         try discriminate H ]
  end.
  { unfold Job._prepare_data, base._put.
    pose proof (extends_request (Job.rest job) PUT (Some "batches") None).
    apply extends_try_except; trace_auto. }
  simpl in Hsnd. unfold bind in H. rewrite set_state_run in H.
  destruct (base.connection (Job.rest job) t1 _) as [e|answer] eqn:Hc;
    [discriminate H|].
  destruct (json_body answer) as [doc|] eqn:Hdoc; [|discriminate H].
  injection H as <- <-. split; [reflexivity|].
  exists t1, answer, doc. repeat split; auto. now exists ext.
Qed.

Lemma upload_returns_after_patch_witness :
  exists t1 answer doc,
    [Requested (batches_request Scenario.completing_job
                  ("Name" ++ Scenario.NL ++ "Acme" ++ Scenario.NL)%string);
     Requested (state_request Scenario.completing_job "UploadComplete")]
    = t1 ++ [Requested (state_request Scenario.completing_job
                                      "UploadComplete")]
    /\ base.connection (Job.rest Scenario.completing_job) t1
         (state_request Scenario.completing_job "UploadComplete")
       = inr answer
    /\ json_body answer = Some doc
    /\ exists ext, t1 = [] ++ ext.
Proof.
  exact (proj2 (upload_returns_after_patch
                  Scenario.get_csv_string Scenario.completing_job
                  [PDict [("Name", PStr "Acme")]] [] true _ eq_refl)).
Defined.

(** ** The polling loop, in general *)

Lemma poll_stops POLL job fuel t0 n t' :
  not_done_for POLL job t0 n ->
  n < fuel ->
  Job.is_done job (t0 ++ polls POLL job n) = (Returns true, t') ->
  Job.poll POLL fuel job t0 = (Returns tt, t').
Proof.
  intros Hnd Hfuel Hdone.
  replace fuel with (n + S (fuel - S n)) by lia.
  rewrite poll_forward by exact Hnd. now apply poll_done.
Qed.

Lemma poll_raises POLL job fuel t0 n e t' :
  not_done_for POLL job t0 n ->
  n < fuel ->
  Job.is_done job (t0 ++ polls POLL job n) = (Raises e, t') ->
  Job.poll POLL fuel job t0 = (Raises e, t').
Proof.
  intros Hnd Hfuel Hdone.
  replace fuel with (n + S (fuel - S n)) by lia.
  rewrite poll_forward by exact Hnd. simpl. unfold bind. now rewrite Hdone.
Qed.

(** After [n] rounds and a check that finds the job done, [wait()] goes
    on with a new status check. *)
Lemma wait_after_rounds FAIL POLL fuel job t0 n s0 :
  not_done_for POLL job t0 n ->
  observes job (t0 ++ polls POLL job n) s0 ->
  py_in s0 const.BULK_STATES_DONE = true ->
  n < fuel ->
  Job.wait FAIL POLL fuel job t0
  = (s <- Job.get_state job ;;
     (if py_in s FAIL
      then i <- Job.info job ;;
           message <- lift (py_get i "errorMessage") ;;
           raise (BulkJobFailedError message)
      else ret tt) ;;
     failed <- Job.get_failed_results job ;;
     successful <- Job.get_successful_results job ;;
     ret (failed ++ successful))
      (t0 ++ polls POLL job n ++ [Requested (status_request job)]).
Proof.
  intros Hnd Hs0 Hin Hfuel. unfold Job.wait. unfold bind at 1.
  rewrite (poll_stops POLL job fuel t0 n
             ((t0 ++ polls POLL job n) ++ [Requested (status_request job)])
             Hnd Hfuel).
  - now rewrite <- app_assoc.
  - now rewrite (is_done_observes _ _ _ Hs0), Hin.
Qed.

Lemma is_status_check_results job uri :
  is_status_check job (Requested (results_request job uri)) = false.
Proof. simpl. apply String.eqb_neq. apply append_neq. Qed.

Lemma status_checks_results job uri :
  status_checks job [Requested (results_request job uri)] = 0.
Proof.
  unfold status_checks. cbn [filter].
  now rewrite is_status_check_results.
Qed.

Lemma sleeps_app t1 t2 : sleeps (t1 ++ t2) = sleeps t1 + sleeps t2.
Proof. unfold sleeps. now rewrite filter_app, length_app. Qed.

Lemma sleeps_polls POLL job n : sleeps (polls POLL job n) = n.
Proof.
  induction n as [|n IH]; [reflexivity|].
  unfold sleeps in *. simpl. now rewrite IH.
Qed.

(** The events of the two fetches that end [wait()]. *)
Lemma results_phase_trace job t :
  exists ext,
    snd ((failed <- Job.get_failed_results job ;;
          successful <- Job.get_successful_results job ;;
          ret (failed ++ successful)) t)
    = t ++ Requested (results_request job "failedResults") :: ext
    /\ (ext = []
        \/ ext = [Requested (results_request job "successfulResults")]).
Proof.
  unfold bind.
  pose proof (get_results_trace job "failedResults" Job.fail_callback t)
    as Hf.
  fold (Job.get_failed_results job) in Hf.
  destruct (Job.get_failed_results job t) as [[failed| |] tf];
    simpl in Hf; subst tf;
    try (exists []; split; [reflexivity | now left]).
  pose proof (get_results_trace job "successfulResults"
                Job.success_callback
                (t ++ [Requested (results_request job "failedResults")]))
    as Hs.
  fold (Job.get_successful_results job) in Hs.
  destruct (Job.get_successful_results job _) as [[successful| |] ts];
    simpl in Hs; subst ts;
    exists [Requested (results_request job "successfulResults")];
    rewrite <- app_assoc; (split; [reflexivity | now right]).
Qed.

(** [wait()] has no time-out: while the job is never found done, every
    bound on the number of rounds is reached, with as many status checks
    and pauses as the bound, and nothing is returned or raised. *)
Theorem wait_never_times_out FAIL POLL job t0 :
  (forall n, not_done_for POLL job t0 n) ->
  forall fuel,
    Job.wait FAIL POLL fuel job t0 = (Diverges, t0 ++ polls POLL job fuel).
Proof.
  intros Hnd fuel. unfold Job.wait. unfold bind at 1.
  replace fuel with (fuel + 0) at 1 by lia.
  now rewrite (poll_forward POLL job fuel 0 t0 (Hnd fuel)).
Qed.

Lemma wait_never_times_out_witness :
  Job.wait Scenario.BULK_STATES_FAIL Scenario.POLL_SLEEP_SECONDS 7
           Faults.stuck_job []
  = (Diverges, [] ++ polls Scenario.POLL_SLEEP_SECONDS Faults.stuck_job 7).
Proof.
  apply (wait_never_times_out
           Scenario.BULK_STATES_FAIL Scenario.POLL_SLEEP_SECONDS
           Faults.stuck_job []).
  intros n k _.
  unfold Job.is_done, Job.get_state, Job.info, base._get, bind.
  rewrite request_run. simpl.
  now destruct (List.length _) as [|[|]].
Defined.

(** [is_done()] answers [True] exactly when the descriptor it fetched
    carries one of the three strings [JobComplete], [Failed], [Aborted]
    as its [state], letter for letter; a descriptor without [state] is
    not done, and an answer that is not a JSON object raises
    [AttributeError]. *)
Theorem is_done_exactly job t :
  (forall t',
     Job.is_done job t = (Returns true, t') <->
     exists doc s,
       Job.info job t = (Returns doc, t')
       /\ py_get doc "state" = inr (PStr s)
       /\ (s = "JobComplete" \/ s = "Failed" \/ s = "Aborted"))
  /\ (forall d t',
        Job.info job t = (Returns (PDict d), t') ->
        assoc "state" d = None ->
        Job.is_done job t = (Returns false, t'))
  /\ (forall doc t',
        Job.info job t = (Returns doc, t') ->
        (forall d, doc <> PDict d) ->
        Job.is_done job t = (Raises AttributeError, t')).
Proof.
  assert (Hin : forall v,
    py_in v const.BULK_STATES_DONE = true <->
    exists s, v = PStr s
              /\ (s = "JobComplete" \/ s = "Failed" \/ s = "Aborted")).
  { intros v. unfold py_in, const.BULK_STATES_DONE. split.
    - destruct v as [| | |s| |]; try discriminate.
      cbn [existsb py_eq_str].
      rewrite !orb_true_iff, !String.eqb_eq.
      intros H. exists s. intuition discriminate.
    - intros (s & -> & H). cbn [existsb py_eq_str].
      rewrite !orb_true_iff, !String.eqb_eq. tauto. }
  split; [|split].
  - intros t'. unfold Job.is_done, Job.get_state, bind, ret. split.
    + intros H.
      destruct (Job.info job t) as [[doc| |] t1]; try discriminate H.
      unfold lift in H.
      destruct (py_get doc "state") as [e|v] eqn:Hv; try discriminate H.
      unfold ret in H. injection H as Hb <-.
      apply Hin in Hb. destruct Hb as (s & -> & Hs).
      now exists doc, s.
    + intros (doc & s & Hi & Hv & Hs). rewrite Hi, Hv. simpl lift.
      unfold ret.
      replace (py_in (PStr s) const.BULK_STATES_DONE) with true;
        [reflexivity|].
      symmetry. apply Hin. now exists s.
  - intros d t' Hi Hd. unfold Job.is_done, Job.get_state, bind.
    rewrite Hi. simpl. now rewrite Hd.
  - intros doc t' Hi Hnd. unfold Job.is_done, Job.get_state, bind.
    rewrite Hi. destruct doc; try reflexivity. now contradiction (Hnd d).
Qed.

(** For any failure state, the exception of [wait()] carries whatever the
    descriptor fetched for the message has under [errorMessage], [None]
    when it has none.  Three descriptors are fetched one after the
    other: the one that ends the loop, the one tested for failure and
    the one read for the message. *)
Theorem wait_failure_message FAIL POLL fuel job t0 n s0 s1 doc message :
  not_done_for POLL job t0 n ->
  observes job (t0 ++ polls POLL job n) s0 ->
  py_in s0 const.BULK_STATES_DONE = true ->
  observes job (t0 ++ polls POLL job n ++ [Requested (status_request job)])
           s1 ->
  py_in s1 FAIL = true ->
  Job.info job (t0 ++ polls POLL job n
                ++ [Requested (status_request job);
                    Requested (status_request job)])
  = (Returns doc,
     t0 ++ polls POLL job n
     ++ [Requested (status_request job); Requested (status_request job);
         Requested (status_request job)]) ->
  py_get doc "errorMessage" = inr message ->
  n < fuel ->
  Job.wait FAIL POLL fuel job t0
  = (Raises (BulkJobFailedError message),
     t0 ++ polls POLL job n
     ++ [Requested (status_request job); Requested (status_request job);
         Requested (status_request job)])
  /\ (forall d, doc = PDict d -> assoc "errorMessage" d = None ->
      message = PNone).
Proof.
  intros Hnd Hs0 Hin Hs1 Hfail Hinfo Hmsg Hfuel. split.
  - rewrite (wait_after_rounds FAIL POLL fuel job t0 n s0 Hnd Hs0 Hin Hfuel).
    unfold bind at 1. rewrite Hs1, Hfail.
    unfold bind. rewrite <- !app_assoc. simpl app at 3.
    simpl app in Hinfo. rewrite Hinfo, Hmsg. reflexivity.
  - intros d -> Hd. simpl in Hmsg. rewrite Hd in Hmsg. now injection Hmsg.
Qed.

Lemma wait_failure_message_witness :
  Job.wait Scenario.BULK_STATES_FAIL Scenario.POLL_SLEEP_SECONDS 1
           Faults.aborted_job []
  = (Raises (BulkJobFailedError PNone),
     [] ++ polls Scenario.POLL_SLEEP_SECONDS Faults.aborted_job 0
     ++ [Requested (status_request Faults.aborted_job);
         Requested (status_request Faults.aborted_job);
         Requested (status_request Faults.aborted_job)]).
Proof.
  refine (proj1 (wait_failure_message
                   Scenario.BULK_STATES_FAIL Scenario.POLL_SLEEP_SECONDS 1
                   Faults.aborted_job [] 0 (PStr "Aborted") (PStr "Aborted")
                   (PDict [("state", PStr "Aborted")]) PNone
                   _ eq_refl eq_refl eq_refl eq_refl eq_refl eq_refl
                   (le_n 1))).
  intros k Hk. lia.
Defined.

(** A job found done after [n] rounds and not in a failure state at the
    next check: [wait()] goes on to the two result sets, having made
    exactly [n + 2] status checks and [n] pauses.  The state tested for
    failure comes from a status check of its own, not from the one that
    ended the loop. *)
Theorem wait_rounds_and_checks FAIL POLL fuel job t0 n s0 s1 :
  not_done_for POLL job t0 n ->
  observes job (t0 ++ polls POLL job n) s0 ->
  py_in s0 const.BULK_STATES_DONE = true ->
  observes job (t0 ++ polls POLL job n ++ [Requested (status_request job)])
           s1 ->
  py_in s1 FAIL = false ->
  n < fuel ->
  Job.wait FAIL POLL fuel job t0
  = (failed <- Job.get_failed_results job ;;
     successful <- Job.get_successful_results job ;;
     ret (failed ++ successful))
      (t0 ++ polls POLL job n
       ++ [Requested (status_request job); Requested (status_request job)])
  /\ status_checks job (snd (Job.wait FAIL POLL fuel job t0))
     = status_checks job t0 + n + 2
  /\ sleeps (snd (Job.wait FAIL POLL fuel job t0)) = sleeps t0 + n.
Proof.
  intros Hnd Hs0 Hin Hs1 Hnf Hfuel.
  assert (Heq : Job.wait FAIL POLL fuel job t0
    = (failed <- Job.get_failed_results job ;;
       successful <- Job.get_successful_results job ;;
       ret (failed ++ successful))
        (t0 ++ polls POLL job n
         ++ [Requested (status_request job);
             Requested (status_request job)])).
  { rewrite (wait_after_rounds FAIL POLL fuel job t0 n s0 Hnd Hs0 Hin Hfuel).
    unfold bind at 1. rewrite Hs1, Hnf.
    unfold bind at 1, ret at 1. now rewrite <- !app_assoc. }
  split; [exact Heq|]. rewrite Heq.
  destruct (results_phase_trace job
              (t0 ++ polls POLL job n
               ++ [Requested (status_request job);
                   Requested (status_request job)]))
    as (ext & -> & Hext).
  change [Requested (status_request job); Requested (status_request job)]
    with ([Requested (status_request job)]
          ++ [Requested (status_request job)]).
  change (Requested (results_request job "failedResults") :: ext)
    with ([Requested (results_request job "failedResults")] ++ ext).
  rewrite !status_checks_app, !sleeps_app, status_checks_polls,
    sleeps_polls, status_checks_request, status_checks_results.
  destruct Hext as [-> | ->].
  - split; [reflexivity || (unfold status_checks, sleeps; simpl; lia)|].
    unfold sleeps. simpl. lia.
  - rewrite status_checks_results. split; [lia|].
    unfold sleeps. simpl. lia.
Qed.

Lemma wait_rounds_and_checks_witness :
  status_checks Scenario.completing_job
    (snd (Job.wait Scenario.BULK_STATES_FAIL Scenario.POLL_SLEEP_SECONDS 5
            Scenario.completing_job []))
  = status_checks Scenario.completing_job [] + 2 + 2
  /\ sleeps (snd (Job.wait Scenario.BULK_STATES_FAIL
                    Scenario.POLL_SLEEP_SECONDS 5
                    Scenario.completing_job []))
     = sleeps [] + 2.
Proof.
  refine (proj2 (wait_rounds_and_checks
                   Scenario.BULK_STATES_FAIL Scenario.POLL_SLEEP_SECONDS 5
                   Scenario.completing_job [] 2
                   (PStr "JobComplete") (PStr "JobComplete")
                   _ eq_refl eq_refl eq_refl eq_refl _)); [|lia].
  intros [|[|k]] Hk; try lia; reflexivity.
Defined.

(** The failed results are fetched first: when that fetch raises (a
    transport failure, a CSV error, a row too short), [wait()] raises
    the same exception and the successful results are never asked
    for; the trace ends with the request for the failed ones. *)
Theorem wait_failed_results_error FAIL POLL fuel job t0 n s0 s1 e t' :
  not_done_for POLL job t0 n ->
  observes job (t0 ++ polls POLL job n) s0 ->
  py_in s0 const.BULK_STATES_DONE = true ->
  observes job (t0 ++ polls POLL job n ++ [Requested (status_request job)])
           s1 ->
  py_in s1 FAIL = false ->
  n < fuel ->
  Job.get_failed_results job
    (t0 ++ polls POLL job n
     ++ [Requested (status_request job); Requested (status_request job)])
  = (Raises e, t') ->
  Job.wait FAIL POLL fuel job t0
  = (Raises e,
     t0 ++ polls POLL job n
     ++ [Requested (status_request job); Requested (status_request job);
         Requested (results_request job "failedResults")]).
Proof.
  intros Hnd Hs0 Hin Hs1 Hnf Hfuel Hf.
  rewrite (wait_after_rounds FAIL POLL fuel job t0 n s0 Hnd Hs0 Hin Hfuel).
  unfold bind at 1. rewrite Hs1, Hnf.
  unfold bind at 1, ret at 1. unfold bind.
  rewrite <- !app_assoc. simpl app at 3.
  pose proof (get_results_trace job "failedResults" Job.fail_callback
                (t0 ++ polls POLL job n
                 ++ [Requested (status_request job);
                     Requested (status_request job)])) as Htr.
  fold (Job.get_failed_results job) in Htr.
  rewrite Hf in *. simpl in Htr. subst t'.
  now rewrite <- !app_assoc.
Qed.

Lemma wait_failed_results_error_witness :
  Job.wait Scenario.BULK_STATES_FAIL Scenario.POLL_SLEEP_SECONDS 1
           Scenario.malformed_job []
  = (Raises IndexError,
     [] ++ polls Scenario.POLL_SLEEP_SECONDS Scenario.malformed_job 0
     ++ [Requested (status_request Scenario.malformed_job);
         Requested (status_request Scenario.malformed_job);
         Requested (results_request Scenario.malformed_job
                                    "failedResults")]).
Proof.
  refine (wait_failed_results_error
            Scenario.BULK_STATES_FAIL Scenario.POLL_SLEEP_SECONDS 1
            Scenario.malformed_job [] 0
            (PStr "JobComplete") (PStr "JobComplete") IndexError _
            _ eq_refl eq_refl eq_refl eq_refl (le_n 1) eq_refl).
  intros k Hk. lia.
Defined.

(** Nothing is retried: an exception of a status check made while
    polling (a transport failure, an answer that is not JSON or not an
    object) ends [wait()] at once with that exception. *)
Theorem wait_status_error FAIL POLL fuel job t0 n e t' :
  not_done_for POLL job t0 n ->
  Job.is_done job (t0 ++ polls POLL job n) = (Raises e, t') ->
  n < fuel ->
  Job.wait FAIL POLL fuel job t0
  = (Raises e, t0 ++ polls POLL job n ++ [Requested (status_request job)]).
Proof.
  intros Hnd He Hfuel. unfold Job.wait. unfold bind at 1.
  rewrite (poll_raises POLL job fuel t0 n e t' Hnd Hfuel He).
  pose proof (is_done_trace job (t0 ++ polls POLL job n)) as Htr.
  rewrite He in Htr. simpl in Htr. subst t'. now rewrite <- app_assoc.
Qed.

Lemma wait_status_error_witness :
  Job.wait Scenario.BULK_STATES_FAIL Scenario.POLL_SLEEP_SECONDS 9
           Faults.flaky_job []
  = (Raises (TransportError "503 Service Unavailable"),
     [] ++ polls Scenario.POLL_SLEEP_SECONDS Faults.flaky_job 1
     ++ [Requested (status_request Faults.flaky_job)]).
Proof.
  refine (wait_status_error
            Scenario.BULK_STATES_FAIL Scenario.POLL_SLEEP_SECONDS 9
            Faults.flaky_job [] 1 _ _ _ eq_refl _); [|lia].
  intros [|k] Hk; [reflexivity|lia].
Defined.

(** ** What a returned result list says about the CSV text *)








(** ** What an operation never sends *)

Section Emits.

Variable P : Event -> Prop.

Lemma emits_ret {A : Type} (a : A) : emits P (ret a).
Proof. intros t. exists []. simpl. now rewrite app_nil_r. Qed.

Lemma emits_raise {A : Type} (e : Exception) : emits P (@raise A e).
Proof. intros t. exists []. simpl. now rewrite app_nil_r. Qed.

Lemma emits_diverge {A : Type} : emits P (@diverge A).
Proof. intros t. exists []. simpl. now rewrite app_nil_r. Qed.

Lemma emits_lift {A : Type} (r : Exception + A) : emits P (lift r).
Proof. destruct r; [apply emits_raise | apply emits_ret]. Qed.

Lemma emits_bind {A B : Type} (m : M A) (k : A -> M B) :
  emits P m -> (forall a, emits P (k a)) -> emits P (bind m k).
Proof.
  intros Hm Hk t. unfold bind.
  destruct (Hm t) as (ext1 & H1 & HP1).
  destruct (m t) as [[a|e|] t']; simpl in H1; subst t'.
  - destruct (Hk a (t ++ ext1)) as (ext2 & H2 & HP2).
    exists (ext1 ++ ext2). rewrite H2, app_assoc. split; [reflexivity|].
    apply Forall_app. now split.
  - now exists ext1.
  - now exists ext1.
Qed.

Lemma emits_try_except {A : Type} (body handler : M A) E :
  emits P body -> emits P handler -> emits P (try_except body E handler).
Proof.
  intros Hb Hh t. unfold try_except.
  destruct (Hb t) as (ext1 & H1 & HP1).
  destruct (body t) as [[a|e|] t']; simpl in H1; subst t'.
  - now exists ext1.
  - destruct (E e).
    + destruct (Hh (t ++ ext1)) as (ext2 & H2 & HP2).
      exists (ext1 ++ ext2). rewrite H2, app_assoc. split; [reflexivity|].
      apply Forall_app. now split.
    + now exists ext1.
  - now exists ext1.
Qed.

Lemma emits_connection_request c r :
  P (Requested r) -> emits P (connection_request c r).
Proof. intros H t. exists [Requested r]. split; [reflexivity|]. auto. Qed.

Lemma emits_time_sleep s : P (Slept s) -> emits P (time_sleep s).
Proof. intros H t. exists [Slept s]. split; [reflexivity|]. auto. Qed.

Lemma emits_request self m uri js d h :
  P (Requested {| method := m; url := base._format_url self uri;
                  json := js; data := d; headers := h |}) ->
  emits P (base._request self m uri js d h).
Proof.
  intros H. unfold base._request.
  apply emits_bind; [now apply emits_connection_request|].
  intros resp. destruct (json_body resp);
    [apply emits_ret | apply emits_raise].
Qed.

Lemma emits_get_results {A : Type} job uri
    (callback : list string -> Exception + A) :
  P (Requested (results_request job uri)) ->
  emits P (Job._get_results job uri callback).
Proof.
  intros H. unfold Job._get_results.
  apply emits_bind; [now apply emits_connection_request|].
  intros resp. cbv zeta. apply emits_bind; [apply emits_lift|].
  intros lines. apply emits_lift.
Qed.

End Emits.

Lemma emits_wait FAIL POLL fuel job :
  emits (keeps_job POLL) (Job.wait FAIL POLL fuel job).
Proof.
  assert (Hget : forall r, method r = GET ->
                           keeps_job POLL (Requested r)).
  { intros r Hr. simpl. rewrite Hr. split; discriminate. }
  assert (Hinfo : emits (keeps_job POLL) (Job.info job)).
  { apply emits_request. now apply Hget. }
  assert (Hstate : emits (keeps_job POLL) (Job.get_state job)).
  { unfold Job.get_state. apply emits_bind; [exact Hinfo|].
    intros i. apply emits_lift. }
  assert (Hpoll : emits (keeps_job POLL) (Job.poll POLL fuel job)).
  { induction fuel as [|fuel IH]; simpl; [apply emits_diverge|].
    apply emits_bind.
    - unfold Job.is_done. apply emits_bind; [exact Hstate|].
      intros s. apply emits_ret.
    - intros [|]; [apply emits_ret|].
      apply emits_bind; [|intros _; exact IH].
      now apply emits_time_sleep. }
  unfold Job.wait. apply emits_bind; [exact Hpoll|]. intros _.
  apply emits_bind; [exact Hstate|]. intros s.
  apply emits_bind.
  - destruct (py_in s FAIL); [|apply emits_ret].
    apply emits_bind; [exact Hinfo|]. intros i.
    apply emits_bind; [apply emits_lift|]. intros m. apply emits_raise.
  - intros _. apply emits_bind.
    + apply emits_get_results. now apply Hget.
    + intros failed. apply emits_bind.
      * apply emits_get_results. now apply Hget.
      * intros successful. apply emits_ret.
Qed.

Lemma emits_upload POLL get_csv job entries :
  emits (keeps_job POLL) (Job.upload get_csv job entries).
Proof.
  unfold Job.upload. apply emits_bind.
  - apply emits_try_except; [|apply emits_ret].
    apply emits_bind; [apply emits_lift|]. intros payload.
    apply emits_bind; [|intros _; apply emits_ret].
    apply emits_request. simpl. split; discriminate.
  - intros _. apply emits_bind; [|intros _; apply emits_ret].
    apply emits_request. simpl. split; [discriminate|reflexivity].
Qed.

Lemma emits_execute_operation FAIL POLL get_csv fuel (self : Bulk.t)
    operation object_name entries external_id :
  emits (keeps_job POLL)
        (Bulk._execute_operation FAIL POLL get_csv fuel self operation
           object_name entries external_id).
Proof.
  unfold Bulk._execute_operation. apply emits_bind.
  - unfold Bulk._create_job. apply emits_bind.
    + apply emits_request. simpl. split; discriminate.
    + intros result. apply emits_bind; [apply emits_lift|].
      intros id. apply emits_lift.
  - intros job. apply emits_bind; [apply emits_upload|].
    intros _. apply emits_wait.
Qed.

(** Whatever the platform answers, an operation leaves the remote job in
    place: among the requests of [insert], [update], [upsert] and
    [delete] there is no DELETE, the only state patch is the one to
    [UploadComplete] (the job is never aborted), and every pause has the
    configured length. *)
Theorem operations_keep_job FAIL POLL get_csv fuel (self : Bulk.t)
    object_name entries ids external :
  emits (keeps_job POLL)
        (Bulk.insert FAIL POLL get_csv fuel self object_name entries)
  /\ emits (keeps_job POLL)
           (Bulk.update FAIL POLL get_csv fuel self object_name entries)
  /\ emits (keeps_job POLL)
           (Bulk.upsert FAIL POLL get_csv fuel self object_name entries
                        external)
  /\ emits (keeps_job POLL)
           (Bulk.delete FAIL POLL get_csv fuel self object_name ids).
Proof. repeat split; apply emits_execute_operation. Qed.

(** ** Result sets written without quotes *)

Lemma string_app_assoc (a b c : string) :
  ((a ++ b) ++ c = a ++ (b ++ c))%string.
Proof. induction a as [|x a IH]; simpl; [reflexivity|now rewrite IH]. Qed.

Lemma string_app_nil_r (a : string) : (a ++ "")%string = a.
Proof. induction a as [|x a IH]; simpl; [reflexivity|now rewrite IH]. Qed.

Lemma string_length_snoc (a : string) (c : ascii) :
  String.length (a ++ String c "") = S (String.length a).
Proof. induction a as [|x a IH]; simpl; [reflexivity|now rewrite IH]. Qed.

Lemma plain_char_inv c :
  plain_char c = true ->
  Ascii.eqb c csv.delimiter = false
  /\ Ascii.eqb c csv.quotechar = false
  /\ csv.is_newline c = false.
Proof.
  unfold plain_char. rewrite negb_true_iff, !orb_false_iff. tauto.
Qed.

Lemma parse_add_char_ok st fs cur c :
  (N.of_nat (String.length cur) < csv.field_limit)%N ->
  csv.parse_add_char
    {| csv.state := st; csv.fields := fs; csv.field := cur |} c
  = inr {| csv.state := st; csv.fields := fs;
           csv.field := (cur ++ String c "")%string |}.
Proof.
  intros H. unfold csv.parse_add_char. cbn [csv.field csv.state csv.fields].
  apply N.leb_gt in H. now rewrite H.
Qed.

(** The characters of a plain field join the field in progress. *)
Lemma process_plain f : forall st fs cur rest,
  plain f = true ->
  (N.of_nat (String.length cur + String.length f) <= csv.field_limit)%N ->
  st = csv.START_FIELD \/ st = csv.IN_FIELD ->
  exists st',
    (st' = csv.START_FIELD \/ st' = csv.IN_FIELD)
    /\ csv.process_line
         {| csv.state := st; csv.fields := fs; csv.field := cur |}
         (f ++ rest)
       = csv.process_line
           {| csv.state := st'; csv.fields := fs;
              csv.field := (cur ++ f)%string |}
           rest.
Proof.
  induction f as [|c f IH]; intros st fs cur rest Hp Hlen Hst.
  - exists st. rewrite string_app_nil_r. now split.
  - simpl in Hp. apply andb_true_iff in Hp. destruct Hp as [Hc Hp].
    apply plain_char_inv in Hc. destruct Hc as (Hd & Hq & Hn).
    assert (Hlt : (N.of_nat (String.length cur) < csv.field_limit)%N).
    { simpl in Hlen. lia. }
    assert (Hstep : csv.parse_process_char
                      {| csv.state := st; csv.fields := fs;
                         csv.field := cur |} (Some c)
                    = inr {| csv.state := csv.IN_FIELD; csv.fields := fs;
                             csv.field := (cur ++ String c "")%string |}).
    { destruct Hst as [-> | ->]; unfold csv.parse_process_char;
        cbn [csv.state]; unfold csv.process_START_FIELD;
        rewrite Hn, ?Hq, Hd, (parse_add_char_ok _ _ _ _ Hlt);
        reflexivity. }
    destruct (IH csv.IN_FIELD fs (cur ++ String c "")%string rest Hp)
      as (st' & Hst' & Heq).
    + rewrite string_length_snoc. simpl in Hlen. lia.
    + now right.
    + exists st'. split; [exact Hst'|].
      change ((String c f ++ rest)%string) with (String c (f ++ rest)).
      cbn [csv.process_line]. rewrite Hstep, Heq.
      now rewrite string_app_assoc.
Qed.

Lemma process_delimiter st fs cur rest :
  st = csv.START_FIELD \/ st = csv.IN_FIELD ->
  csv.process_line
    {| csv.state := st; csv.fields := fs; csv.field := cur |}
    (String csv.delimiter rest)
  = csv.process_line
      {| csv.state := csv.START_FIELD; csv.fields := fs ++ [cur];
         csv.field := "" |}
      rest.
Proof. intros [-> | ->]; reflexivity. Qed.

Lemma process_line_feed st fs cur :
  st = csv.START_FIELD \/ st = csv.IN_FIELD ->
  csv.process_line
    {| csv.state := st; csv.fields := fs; csv.field := cur |}
    (String csv.LF "")
  = inr {| csv.state := csv.EAT_CRNL; csv.fields := fs ++ [cur];
           csv.field := "" |}.
Proof. intros [-> | ->]; reflexivity. Qed.

Lemma concat_cons (sep x y : string) (l : list string) :
  String.concat sep (x :: y :: l)
  = (x ++ sep ++ String.concat sep (y :: l))%string.
Proof. reflexivity. Qed.

(** A line of plain fields, read from the start of a field. *)
Lemma process_fields more : forall f fs,
  Forall (fun x => plain_field x = true) (f :: more) ->
  csv.process_line
    {| csv.state := csv.START_FIELD; csv.fields := fs; csv.field := "" |}
    (csv_line (f :: more))
  = inr {| csv.state := csv.EAT_CRNL; csv.fields := fs ++ f :: more;
           csv.field := "" |}.
Proof.
  induction more as [|g more IH]; intros f fs Hall;
    inversion Hall as [|? ? Hf Hmore]; subst;
    unfold plain_field in Hf; apply andb_true_iff in Hf;
    destruct Hf as [Hp Hlen]; apply N.leb_le in Hlen.
  - unfold csv_line. simpl String.concat.
    destruct (process_plain f csv.START_FIELD fs "" (String csv.LF "") Hp)
      as (st' & Hst' & ->); [exact Hlen | now left |].
    now apply process_line_feed.
  - unfold csv_line. rewrite concat_cons, !string_app_assoc.
    destruct (process_plain f csv.START_FIELD fs ""
                ("," ++ String.concat "," (g :: more) ++ String csv.LF "")
                Hp) as (st' & Hst' & ->); [exact Hlen | now left |].
    change (("," ++ String.concat "," (g :: more)
             ++ String csv.LF "")%string)
      with (String csv.delimiter (csv_line (g :: more))).
    rewrite (process_delimiter _ _ _ _ Hst').
    change (("" ++ f)%string) with f.
    rewrite (IH g (fs ++ [f]) Hmore).
    now rewrite <- app_assoc.
Qed.

Lemma plain_row_inv row :
  plain_row row = true ->
  exists f g more,
    row = f :: g :: more
    /\ Forall (fun x => plain_field x = true) row.
Proof.
  unfold plain_row. intros H. apply andb_true_iff in H.
  destruct H as [Hlen Hall]. rewrite forallb_forall in Hall.
  destruct row as [|f [|g more]]; try discriminate Hlen.
  exists f, g, more. split; [reflexivity|]. now apply Forall_forall.
Qed.

Lemma plain_field_plain f : plain_field f = true -> plain f = true.
Proof. unfold plain_field. intros H. now apply andb_true_iff in H. Qed.

(** A line of two plain fields or more does not begin with a line
    break, so the reader takes it from the start of a record as from
    the start of a field. *)
Lemma start_of_record f g more :
  plain_field f = true ->
  csv.process_line csv.parse_reset (csv_line (f :: g :: more))
  = csv.process_line
      {| csv.state := csv.START_FIELD; csv.fields := [];
         csv.field := "" |}
      (csv_line (f :: g :: more)).
Proof.
  intros Hf. apply plain_field_plain in Hf.
  assert (Hstart : forall c l,
    csv.is_newline c = false ->
    csv.process_line csv.parse_reset (String c l)
    = csv.process_line
        {| csv.state := csv.START_FIELD; csv.fields := [];
           csv.field := "" |} (String c l)).
  { intros c l Hc. cbn [csv.process_line].
    unfold csv.parse_process_char. cbn [csv.state csv.parse_reset].
    now rewrite Hc. }
  unfold csv_line. rewrite concat_cons.
  destruct f as [|c f].
  - apply Hstart. reflexivity.
  - simpl in Hf. apply andb_true_iff in Hf. destruct Hf as [Hc _].
    apply plain_char_inv in Hc. apply Hstart. tauto.
Qed.

Lemma iternext_plain_row row rest :
  plain_row row = true ->
  csv.Reader_iternext (csv_line row :: rest) = csv.Yield row rest.
Proof.
  intros H. destruct (plain_row_inv row H) as (f & g & more & -> & Hall).
  unfold csv.Reader_iternext. cbn [csv.iternext_loop].
  rewrite start_of_record by now inversion Hall.
  now rewrite (process_fields (g :: more) f [] Hall).
Qed.

Lemma readlines_plain f : forall cur rest,
  plain f = true ->
  csv.readlines cur (f ++ rest) = csv.readlines (cur ++ f) rest.
Proof.
  induction f as [|c f IH]; intros cur rest Hp.
  - now rewrite string_app_nil_r.
  - simpl in Hp. apply andb_true_iff in Hp. destruct Hp as [Hc Hp].
    apply plain_char_inv in Hc. destruct Hc as (_ & _ & Hn).
    unfold csv.is_newline in Hn. apply orb_false_iff in Hn.
    destruct Hn as [Hlf _].
    change ((String c f ++ rest)%string) with (String c (f ++ rest)).
    cbn [csv.readlines]. rewrite Hlf, IH by exact Hp.
    now rewrite string_app_assoc.
Qed.

Lemma readlines_fields more : forall f cur rest,
  Forall (fun x => plain_field x = true) (f :: more) ->
  csv.readlines cur (csv_line (f :: more) ++ rest)
  = (cur ++ csv_line (f :: more))%string :: csv.readlines "" rest.
Proof.
  induction more as [|g more IH]; intros f cur rest Hall;
    inversion Hall as [|? ? Hf Hmore]; subst;
    apply plain_field_plain in Hf.
  - unfold csv_line. simpl String.concat.
    rewrite string_app_assoc, (readlines_plain f _ _ Hf).
    cbn. now rewrite string_app_assoc.
  - unfold csv_line. rewrite concat_cons, !string_app_assoc.
    rewrite (readlines_plain f _ _ Hf).
    change (("," ++ String.concat "," (g :: more)
             ++ String csv.LF "" ++ rest)%string)
      with (String "," (String.concat "," (g :: more)
                        ++ String csv.LF "" ++ rest)).
    cbn [csv.readlines].
    change (Ascii.eqb "," csv.LF) with false. cbv iota.
    rewrite <- string_app_assoc.
    change ((String.concat "," (g :: more) ++ String csv.LF "")%string)
      with (csv_line (g :: more)).
    rewrite (IH g _ rest Hmore). unfold csv_line.
    now rewrite !string_app_assoc.
Qed.

Lemma csv_text_cons row rows :
  csv_text (row :: rows) = (csv_line row ++ csv_text rows)%string.
Proof.
  unfold csv_text. destruct rows as [|row' rows]; simpl.
  - now rewrite string_app_nil_r.
  - reflexivity.
Qed.

Lemma StringIO_plain rows :
  forallb plain_row rows = true ->
  csv.StringIO (csv_text rows) = map csv_line rows.
Proof.
  unfold csv.StringIO. induction rows as [|row rows IH]; intros H.
  - reflexivity.
  - simpl in H. apply andb_true_iff in H. destruct H as [Hrow Hrows].
    destruct (plain_row_inv row Hrow) as (f & g & more & -> & Hall).
    rewrite csv_text_cons, (readlines_fields _ _ _ _ Hall).
    simpl map. now rewrite IH.
Qed.

Lemma csv_rows_plain rows :
  forallb plain_row rows = true ->
  csv_rows (csv_text rows) = inr rows.
Proof.
  intros H. unfold csv_rows. rewrite (StringIO_plain rows H).
  induction rows as [|row rows IH].
  - reflexivity.
  - simpl in H. apply andb_true_iff in H. destruct H as [Hrow Hrows].
    simpl map. rewrite comprehension_unfold.
    rewrite (iternext_plain_row row _ Hrow).
    now rewrite (IH Hrows).
Qed.

(** A result set written without quotes is read back as it was written:
    for a header and rows of two or more plain fields each (no comma,
    quote or line break inside a field, fields within the field limit
    of the reader), [get_failed_results()] returns one failure per row,
    of its first two fields, and [get_successful_results()] one success
    per row, of its first field, in the order of the rows. *)
Theorem plain_result_sets job t header rows :
  plain_row header = true ->
  forallb plain_row rows = true ->
  (forall resp,
     base.connection (Job.rest job) t (results_request job "failedResults")
     = inr resp ->
     text resp = csv_text (header :: rows) ->
     Job.get_failed_results job t
     = (Returns (map fail_of_row rows),
        t ++ [Requested (results_request job "failedResults")]))
  /\ (forall resp,
        base.connection (Job.rest job) t
          (results_request job "successfulResults") = inr resp ->
        text resp = csv_text (header :: rows) ->
        Job.get_successful_results job t
        = (Returns (map success_of_row rows),
           t ++ [Requested (results_request job "successfulResults")])).
Proof.
  intros Hh Hrows.
  assert (Hall : csv_rows (csv_text (header :: rows))
                 = inr (header :: rows)).
  { apply csv_rows_plain. simpl. now rewrite Hh, Hrows. }
  assert (Hlen : forall k, k <= 2 ->
            Forall (fun x : list string => k <= List.length x) rows).
  { intros k Hk. apply Forall_forall. intros x Hx.
    rewrite forallb_forall in Hrows. specialize (Hrows x Hx).
    unfold plain_row in Hrows. apply andb_true_iff in Hrows.
    destruct Hrows as [Hl _]. apply Nat.leb_le in Hl. lia. }
  split; intros resp Hc Ht; rewrite <- Ht in Hall.
  - unfold Job.get_failed_results.
    rewrite (get_results_rows _ _ _ _ _ _ Hc Hall). simpl tl.
    now rewrite map_fail_callback by (apply Hlen; lia).
  - unfold Job.get_successful_results.
    rewrite (get_results_rows _ _ _ _ _ _ Hc Hall). simpl tl.
    now rewrite map_success_callback by (apply Hlen; lia).
Qed.

Lemma plain_result_sets_witness :
  Job.get_failed_results Scenario.completing_job []
  = (Returns (map fail_of_row [["001"; "BAD"]]),
     [] ++ [Requested (results_request Scenario.completing_job
                                       "failedResults")])
  /\ Job.get_successful_results Scenario.completing_job []
     = (Returns (map success_of_row [["002"; "true"]; ["003"; "true"]]),
        [] ++ [Requested (results_request Scenario.completing_job
                                          "successfulResults")]).
Proof.
  split.
  - exact (proj1 (plain_result_sets Scenario.completing_job []
                    ["sf__Id"; "sf__Error"] [["001"; "BAD"]]
                    eq_refl eq_refl)
                 {| text := Scenario.failed_csv; json_body := None |}
                 eq_refl eq_refl).
  - exact (proj2 (plain_result_sets Scenario.completing_job []
                    ["sf__Id"; "sf__Created"]
                    [["002"; "true"]; ["003"; "true"]]
                    eq_refl eq_refl)
                 {| text := Scenario.successful_csv; json_body := None |}
                 eq_refl eq_refl).
Defined.

(** ** The requests of a whole operation *)

Lemma upload_run get_csv job entries payload t :
  get_csv entries = inr payload ->
  Job.upload get_csv job entries t
  = match base.connection (Job.rest job) t (batches_request job payload) with
    | inl e =>
        if is_JSONDecodeError e
        then (Job._set_state job "UploadComplete" ;; ret true)
               (t ++ [Requested (batches_request job payload)])
        else (Raises e, t ++ [Requested (batches_request job payload)])
    | inr _ =>
        (Job._set_state job "UploadComplete" ;; ret true)
          (t ++ [Requested (batches_request job payload)])
    end.
Proof.
  intros Hp. unfold Job.upload. unfold bind at 1.
  unfold try_except, Job._prepare_data. unfold bind at 1.
  rewrite Hp. unfold lift, ret at 1. unfold bind at 1.
  unfold base._put. rewrite request_run.
  fold (batches_request job payload).
  destruct (base.connection (Job.rest job) t _) as [e|resp].
  - now destruct (is_JSONDecodeError e).
  - now destruct (json_body resp).
Qed.

Lemma upload_returns_trace get_csv job entries payload t b t' :
  get_csv entries = inr payload ->
  Job.upload get_csv job entries t = (Returns b, t') ->
  t' = t ++ [Requested (batches_request job payload);
             Requested (state_request job "UploadComplete")].
Proof.
  intros Hp H.
  assert (Hk : (Job._set_state job "UploadComplete" ;; ret true)
                 (t ++ [Requested (batches_request job payload)])
               = (Returns b, t') ->
               t' = t ++ [Requested (batches_request job payload);
                          Requested (state_request job "UploadComplete")]).
  { unfold bind. rewrite set_state_run. intros Hk.
    destruct (base.connection (Job.rest job) _ _) as [e|resp];
      [discriminate Hk|].
    destruct (json_body resp); [|discriminate Hk].
    injection Hk as _ <-. now rewrite <- app_assoc. }
  rewrite (upload_run _ _ _ _ _ Hp) in H.
  destruct (base.connection (Job.rest job) t _) as [e|resp];
    [destruct (is_JSONDecodeError e); [|discriminate H]|]; now apply Hk.
Qed.

Lemma wait_returns_trace FAIL POLL fuel job t0 rs t' :
  Job.wait FAIL POLL fuel job t0 = (Returns rs, t') ->
  exists n,
    n < fuel
    /\ t' = t0 ++ polls POLL job n
            ++ [Requested (status_request job);
                Requested (status_request job);
                Requested (results_request job "failedResults");
                Requested (results_request job "successfulResults")].
Proof.
  intros H. unfold Job.wait in H. unfold bind at 1 in H.
  destruct (Job.poll POLL fuel job t0) as [[u| |] t1] eqn:Hp;
    try discriminate H.
  apply poll_inv in Hp. destruct Hp as (n & Hn & _ & _ & ->).
  exists n. split; [exact Hn|].
  unfold bind at 1 in H.
  pose proof (get_state_trace job
                ((t0 ++ polls POLL job n)
                 ++ [Requested (status_request job)])) as Hs.
  destruct (Job.get_state job _) as [[s| |] t2]; try discriminate H.
  simpl in Hs. subst t2. unfold bind at 1 in H.
  destruct (py_in s FAIL).
  - unfold bind in H.
    destruct (Job.info job _) as [[i| |] t3]; try discriminate H.
    destruct (lift (py_get i "errorMessage") t3) as [[m| |] t4];
      discriminate H.
  - unfold ret at 1 in H. unfold bind at 1 in H.
    match type of H with
    | context [Job.get_failed_results job ?t] =>
        pose proof (get_results_trace job "failedResults"
                      Job.fail_callback t) as Hf;
        fold (Job.get_failed_results job) in Hf;
        destruct (Job.get_failed_results job t) as [[failed| |] tf];
        try discriminate H
    end.
    simpl in Hf. subst tf. unfold bind at 1 in H.
    match type of H with
    | context [Job.get_successful_results job ?t] =>
        pose proof (get_results_trace job "successfulResults"
                      Job.success_callback t) as Hsucc;
        fold (Job.get_successful_results job) in Hsucc;
        destruct (Job.get_successful_results job t)
          as [[successful| |] ts];
        try discriminate H
    end.
    simpl in Hsucc. subst ts. injection H as _ <-.
    now rewrite <- !app_assoc.
Qed.

(** What an operation that returns has sent, for entries the preparer
    encodes: the creation request, the PUT of the payload to the new
    job, the state patch to [UploadComplete], then some number of rounds
    of status check and pause, two more status checks, the request for
    the failed results and the request for the successful ones, in this
    order and nothing else. *)
Theorem successful_operation_trace FAIL POLL get_csv fuel (self : Bulk.t)
    operation object_name entries external_id payload t rs t' :
  get_csv entries = inr payload ->
  Bulk._execute_operation FAIL POLL get_csv fuel self operation
    object_name entries external_id t = (Returns rs, t') ->
  exists job n,
    n < fuel
    /\ Bulk._create_job self operation object_name external_id t
       = (Returns job,
          t ++ [Requested (create_request self operation object_name
                                          external_id)])
    /\ t' = t ++ [Requested (create_request self operation object_name
                                            external_id);
                  Requested (batches_request job payload);
                  Requested (state_request job "UploadComplete")]
            ++ polls POLL job n
            ++ [Requested (status_request job);
                Requested (status_request job);
                Requested (results_request job "failedResults");
                Requested (results_request job "successfulResults")].
Proof.
  intros Hp H. unfold Bulk._execute_operation in H. unfold bind at 1 in H.
  pose proof (create_job_run self operation object_name external_id t)
    as Hc.
  destruct (Bulk._create_job self operation object_name external_id t)
    as [[job| |] t1] eqn:Hjob; try discriminate H.
  assert (Ht1 : t1 = t ++ [Requested (create_request self operation
                                         object_name external_id)]).
  { now injection Hc. }
  clear Hc. subst t1. unfold bind at 1 in H.
  destruct (Job.upload get_csv job entries _) as [[b| |] t2] eqn:Hu;
    try discriminate H.
  apply (upload_returns_trace _ _ _ _ _ _ _ Hp) in Hu. subst t2.
  apply wait_returns_trace in H. destruct H as (n & Hn & ->).
  exists job, n. repeat split; auto.
  now rewrite <- !app_assoc.
Qed.

Lemma successful_operation_trace_witness :
  exists job n,
    n < 3
    /\ Bulk._create_job (Bulk.init Scenario.completing) "insert" "Account"
                        PNone []
       = (Returns job,
          [] ++ [Requested (create_request (Bulk.init Scenario.completing)
                                           "insert" "Account" PNone)])
    /\ snd (Bulk.insert Scenario.BULK_STATES_FAIL
              Scenario.POLL_SLEEP_SECONDS Scenario.get_csv_string 3
              (Bulk.init Scenario.completing) "Account"
              [PDict [("Name", PStr "Acme")]] [])
       = [] ++ [Requested (create_request (Bulk.init Scenario.completing)
                                          "insert" "Account" PNone);
                Requested (batches_request job
                             ("Name" ++ Scenario.NL ++ "Acme"
                              ++ Scenario.NL)%string);
                Requested (state_request job "UploadComplete")]
            ++ polls Scenario.POLL_SLEEP_SECONDS job n
            ++ [Requested (status_request job);
                Requested (status_request job);
                Requested (results_request job "failedResults");
                Requested (results_request job "successfulResults")].
Proof.
  exact (successful_operation_trace
           Scenario.BULK_STATES_FAIL Scenario.POLL_SLEEP_SECONDS
           Scenario.get_csv_string 3 (Bulk.init Scenario.completing)
           "insert" "Account" [PDict [("Name", PStr "Acme")]] PNone
           ("Name" ++ Scenario.NL ++ "Acme" ++ Scenario.NL)%string []
           _ _ eq_refl eq_refl).
Defined.

(** The per-object facade binds its object name: every operation of
    [BulkObject(object_name, connection)] begins with the creation
    request of a Bulk service on that connection for that object, with
    the operation's kind; [upsert] without a field name asks for
    ["Id"]. *)
Theorem facade_binds_object_name FAIL POLL get_csv fuel object_name
    (connection : Connection) entries ids t :
  (exists ext,
     snd (BulkObject.insert FAIL POLL get_csv fuel
            (BulkObject.init object_name connection) entries t)
     = t ++ Requested (create_request (Bulk.init connection) "insert"
                                      object_name PNone) :: ext)
  /\ (exists ext,
        snd (BulkObject.update FAIL POLL get_csv fuel
               (BulkObject.init object_name connection) entries t)
        = t ++ Requested (create_request (Bulk.init connection) "update"
                                         object_name PNone) :: ext)
  /\ (exists ext,
        snd (BulkObject.delete FAIL POLL get_csv fuel
               (BulkObject.init object_name connection) ids t)
        = t ++ Requested (create_request (Bulk.init connection) "delete"
                                         object_name PNone) :: ext)
  /\ (exists ext,
        snd (BulkObject.upsert FAIL POLL get_csv fuel
               (BulkObject.init object_name connection) entries None t)
        = t ++ Requested (create_request (Bulk.init connection) "upsert"
                                         object_name (PStr "Id")) :: ext)
  /\ (forall name, exists ext,
        snd (BulkObject.upsert FAIL POLL get_csv fuel
               (BulkObject.init object_name connection) entries
               (Some name) t)
        = t ++ Requested (create_request (Bulk.init connection) "upsert"
                                         object_name (PStr name)) :: ext).
Proof.
  repeat split; try intros name;
    apply (proj1 (execute_operation_requests _ _ _ _ _ _ _ _ _ _)).
Qed.
